(** * OptaButton: debounced push-button events with long press and
      accelerating hold-repeat

    A shallow embedding of [src/OptaButton.h] and [src/OptaButton.cpp],
    followed by the properties of the polling state machine.

    Conventions of the embedding.
    - [uint32_t] and [uint16_t] values are integers of [Z]; every place
      where the C++ arithmetic is carried out modulo a power of two has the
      reduction written out ([to_uint32], [to_uint16]).
    - The width of [int] differs between the targets the header names: 16
      bits on the AVR boards, 32 bits on the Opta.  It matters in one place,
      the operands of [max] at lines 142-144, and is carried with the
      configuration ([intWidth]).
    - The class is split into its [const] configuration ([Config]) and its
      mutable members ([Button]).  The function statics and the file static
      shared by all instances, together with the expansion controller they
      gate, form [Shared]; what the host offers at the instant of a call
      (clock, pin levels) forms [Host]. *)

From Stdlib Require Import String ZArith List Bool Lia.
Import ListNotations.
Local Open Scope Z_scope.

(** ** Machine arithmetic *)

Definition to_uint32 (z : Z) : Z := z mod 2 ^ 32.
Definition to_uint16 (z : Z) : Z := z mod 2 ^ 16.

(** The [int] of the target: 16 bits on AVR (Uno, Mega), 32 bits on the
    Opta and the other 32-bit cores. *)
Inductive IntWidth : Type := Int16 | Int32.

Definition intBits (w : IntWidth) : Z :=
  match w with Int16 => 16 | Int32 => 32 end.

(** Conversion to [int]: the value modulo [2 ^ intBits], taken in the
    two's-complement range. *)
Definition to_int (w : IntWidth) (z : Z) : Z :=
  (z + 2 ^ (intBits w - 1)) mod 2 ^ intBits w - 2 ^ (intBits w - 1).

(** [a - b] for a [uint16_t] [a] and a [uint8_t] [b], after the integer
    promotions: with a 32-bit [int] both operands become [int]; with a
    16-bit [int] the [uint16_t] becomes [unsigned int], the other operand
    is converted to it, and the difference is taken modulo [2 ^ 16]. *)
Definition promotedDiff (w : IntWidth) (a b : Z) : Z :=
  match w with
  | Int16 => (a - b) mod 2 ^ 16
  | Int32 => a - b
  end.

(** [a - b] and [a + b] on [uint32_t]. *)
Definition sub32 (a b : Z) : Z := to_uint32 (a - b).
Definition add32 (a b : Z) : Z := to_uint32 (a + b).

(** [static constexpr uint16_t LOOP_INTERVAL_MS = 1;] *)
Definition LOOP_INTERVAL_MS : Z := 1.

(** ** Data *)

(** [DefLab::ButtonInputMode], as used by [begin] and [readInput]. *)
Inductive ButtonInputMode : Type := GPIO | OPTA_CTL | EXP_DIG.

(** The configuration members, fixed by the constructor, and with them
    what is fixed when the class is compiled: the width of [int] on the
    target. *)
Record Config : Type := {
  inputMode : ButtonInputMode;
  inputID : Z;
  name : string;
  debounceTime : Z;
  invertedLogic : bool;
  longPressThreshold : Z;
  repeatIntervalStart : Z;
  repeatIntervalMin : Z;
  acceleration : Z;
  intWidth : IntWidth
}.

(** The members written by [update]. *)
Record Button : Type := {
  currentRepeatInterval : Z;
  lastUpdateTime : Z;
  edgeTime : Z;
  lastRepeatTime : Z;
  lastAccelUpdate : Z;
  rawState : bool;
  debouncing : bool;
  currentPressed : bool;
  longPressActive : bool;
  shortPressDetected : bool;
  releaseDetected : bool;
  longPressDetected : bool;
  longReleaseDetected : bool;
  repeatTriggered : bool;
  longPressReported : bool
}.

(** Assignment to one member. *)
Definition set_currentRepeatInterval (v : Z) (b : Button) : Button :=
  {| currentRepeatInterval := v; lastUpdateTime := lastUpdateTime b;
     edgeTime := edgeTime b; lastRepeatTime := lastRepeatTime b;
     lastAccelUpdate := lastAccelUpdate b; rawState := rawState b;
     debouncing := debouncing b; currentPressed := currentPressed b;
     longPressActive := longPressActive b; shortPressDetected := shortPressDetected b;
     releaseDetected := releaseDetected b; longPressDetected := longPressDetected b;
     longReleaseDetected := longReleaseDetected b; repeatTriggered := repeatTriggered b;
     longPressReported := longPressReported b |}.

Definition set_lastUpdateTime (v : Z) (b : Button) : Button :=
  {| currentRepeatInterval := currentRepeatInterval b; lastUpdateTime := v;
     edgeTime := edgeTime b; lastRepeatTime := lastRepeatTime b;
     lastAccelUpdate := lastAccelUpdate b; rawState := rawState b;
     debouncing := debouncing b; currentPressed := currentPressed b;
     longPressActive := longPressActive b; shortPressDetected := shortPressDetected b;
     releaseDetected := releaseDetected b; longPressDetected := longPressDetected b;
     longReleaseDetected := longReleaseDetected b; repeatTriggered := repeatTriggered b;
     longPressReported := longPressReported b |}.

Definition set_edgeTime (v : Z) (b : Button) : Button :=
  {| currentRepeatInterval := currentRepeatInterval b; lastUpdateTime := lastUpdateTime b;
     edgeTime := v; lastRepeatTime := lastRepeatTime b;
     lastAccelUpdate := lastAccelUpdate b; rawState := rawState b;
     debouncing := debouncing b; currentPressed := currentPressed b;
     longPressActive := longPressActive b; shortPressDetected := shortPressDetected b;
     releaseDetected := releaseDetected b; longPressDetected := longPressDetected b;
     longReleaseDetected := longReleaseDetected b; repeatTriggered := repeatTriggered b;
     longPressReported := longPressReported b |}.

Definition set_lastRepeatTime (v : Z) (b : Button) : Button :=
  {| currentRepeatInterval := currentRepeatInterval b; lastUpdateTime := lastUpdateTime b;
     edgeTime := edgeTime b; lastRepeatTime := v; lastAccelUpdate := lastAccelUpdate b;
     rawState := rawState b; debouncing := debouncing b;
     currentPressed := currentPressed b; longPressActive := longPressActive b;
     shortPressDetected := shortPressDetected b; releaseDetected := releaseDetected b;
     longPressDetected := longPressDetected b;
     longReleaseDetected := longReleaseDetected b; repeatTriggered := repeatTriggered b;
     longPressReported := longPressReported b |}.

Definition set_lastAccelUpdate (v : Z) (b : Button) : Button :=
  {| currentRepeatInterval := currentRepeatInterval b; lastUpdateTime := lastUpdateTime b;
     edgeTime := edgeTime b; lastRepeatTime := lastRepeatTime b; lastAccelUpdate := v;
     rawState := rawState b; debouncing := debouncing b;
     currentPressed := currentPressed b; longPressActive := longPressActive b;
     shortPressDetected := shortPressDetected b; releaseDetected := releaseDetected b;
     longPressDetected := longPressDetected b;
     longReleaseDetected := longReleaseDetected b; repeatTriggered := repeatTriggered b;
     longPressReported := longPressReported b |}.

Definition set_rawState (v : bool) (b : Button) : Button :=
  {| currentRepeatInterval := currentRepeatInterval b; lastUpdateTime := lastUpdateTime b;
     edgeTime := edgeTime b; lastRepeatTime := lastRepeatTime b;
     lastAccelUpdate := lastAccelUpdate b; rawState := v; debouncing := debouncing b;
     currentPressed := currentPressed b; longPressActive := longPressActive b;
     shortPressDetected := shortPressDetected b; releaseDetected := releaseDetected b;
     longPressDetected := longPressDetected b;
     longReleaseDetected := longReleaseDetected b; repeatTriggered := repeatTriggered b;
     longPressReported := longPressReported b |}.

Definition set_debouncing (v : bool) (b : Button) : Button :=
  {| currentRepeatInterval := currentRepeatInterval b; lastUpdateTime := lastUpdateTime b;
     edgeTime := edgeTime b; lastRepeatTime := lastRepeatTime b;
     lastAccelUpdate := lastAccelUpdate b; rawState := rawState b; debouncing := v;
     currentPressed := currentPressed b; longPressActive := longPressActive b;
     shortPressDetected := shortPressDetected b; releaseDetected := releaseDetected b;
     longPressDetected := longPressDetected b;
     longReleaseDetected := longReleaseDetected b; repeatTriggered := repeatTriggered b;
     longPressReported := longPressReported b |}.

Definition set_currentPressed (v : bool) (b : Button) : Button :=
  {| currentRepeatInterval := currentRepeatInterval b; lastUpdateTime := lastUpdateTime b;
     edgeTime := edgeTime b; lastRepeatTime := lastRepeatTime b;
     lastAccelUpdate := lastAccelUpdate b; rawState := rawState b;
     debouncing := debouncing b; currentPressed := v;
     longPressActive := longPressActive b; shortPressDetected := shortPressDetected b;
     releaseDetected := releaseDetected b; longPressDetected := longPressDetected b;
     longReleaseDetected := longReleaseDetected b; repeatTriggered := repeatTriggered b;
     longPressReported := longPressReported b |}.

Definition set_longPressActive (v : bool) (b : Button) : Button :=
  {| currentRepeatInterval := currentRepeatInterval b; lastUpdateTime := lastUpdateTime b;
     edgeTime := edgeTime b; lastRepeatTime := lastRepeatTime b;
     lastAccelUpdate := lastAccelUpdate b; rawState := rawState b;
     debouncing := debouncing b; currentPressed := currentPressed b; longPressActive := v;
     shortPressDetected := shortPressDetected b; releaseDetected := releaseDetected b;
     longPressDetected := longPressDetected b;
     longReleaseDetected := longReleaseDetected b; repeatTriggered := repeatTriggered b;
     longPressReported := longPressReported b |}.

Definition set_shortPressDetected (v : bool) (b : Button) : Button :=
  {| currentRepeatInterval := currentRepeatInterval b; lastUpdateTime := lastUpdateTime b;
     edgeTime := edgeTime b; lastRepeatTime := lastRepeatTime b;
     lastAccelUpdate := lastAccelUpdate b; rawState := rawState b;
     debouncing := debouncing b; currentPressed := currentPressed b;
     longPressActive := longPressActive b; shortPressDetected := v;
     releaseDetected := releaseDetected b; longPressDetected := longPressDetected b;
     longReleaseDetected := longReleaseDetected b; repeatTriggered := repeatTriggered b;
     longPressReported := longPressReported b |}.

Definition set_releaseDetected (v : bool) (b : Button) : Button :=
  {| currentRepeatInterval := currentRepeatInterval b; lastUpdateTime := lastUpdateTime b;
     edgeTime := edgeTime b; lastRepeatTime := lastRepeatTime b;
     lastAccelUpdate := lastAccelUpdate b; rawState := rawState b;
     debouncing := debouncing b; currentPressed := currentPressed b;
     longPressActive := longPressActive b; shortPressDetected := shortPressDetected b;
     releaseDetected := v; longPressDetected := longPressDetected b;
     longReleaseDetected := longReleaseDetected b; repeatTriggered := repeatTriggered b;
     longPressReported := longPressReported b |}.

Definition set_longPressDetected (v : bool) (b : Button) : Button :=
  {| currentRepeatInterval := currentRepeatInterval b; lastUpdateTime := lastUpdateTime b;
     edgeTime := edgeTime b; lastRepeatTime := lastRepeatTime b;
     lastAccelUpdate := lastAccelUpdate b; rawState := rawState b;
     debouncing := debouncing b; currentPressed := currentPressed b;
     longPressActive := longPressActive b; shortPressDetected := shortPressDetected b;
     releaseDetected := releaseDetected b; longPressDetected := v;
     longReleaseDetected := longReleaseDetected b; repeatTriggered := repeatTriggered b;
     longPressReported := longPressReported b |}.

Definition set_longReleaseDetected (v : bool) (b : Button) : Button :=
  {| currentRepeatInterval := currentRepeatInterval b; lastUpdateTime := lastUpdateTime b;
     edgeTime := edgeTime b; lastRepeatTime := lastRepeatTime b;
     lastAccelUpdate := lastAccelUpdate b; rawState := rawState b;
     debouncing := debouncing b; currentPressed := currentPressed b;
     longPressActive := longPressActive b; shortPressDetected := shortPressDetected b;
     releaseDetected := releaseDetected b; longPressDetected := longPressDetected b;
     longReleaseDetected := v; repeatTriggered := repeatTriggered b;
     longPressReported := longPressReported b |}.

Definition set_repeatTriggered (v : bool) (b : Button) : Button :=
  {| currentRepeatInterval := currentRepeatInterval b; lastUpdateTime := lastUpdateTime b;
     edgeTime := edgeTime b; lastRepeatTime := lastRepeatTime b;
     lastAccelUpdate := lastAccelUpdate b; rawState := rawState b;
     debouncing := debouncing b; currentPressed := currentPressed b;
     longPressActive := longPressActive b; shortPressDetected := shortPressDetected b;
     releaseDetected := releaseDetected b; longPressDetected := longPressDetected b;
     longReleaseDetected := longReleaseDetected b; repeatTriggered := v;
     longPressReported := longPressReported b |}.

Definition set_longPressReported (v : bool) (b : Button) : Button :=
  {| currentRepeatInterval := currentRepeatInterval b; lastUpdateTime := lastUpdateTime b;
     edgeTime := edgeTime b; lastRepeatTime := lastRepeatTime b;
     lastAccelUpdate := lastAccelUpdate b; rawState := rawState b;
     debouncing := debouncing b; currentPressed := currentPressed b;
     longPressActive := longPressActive b; shortPressDetected := shortPressDetected b;
     releaseDetected := releaseDetected b; longPressDetected := longPressDetected b;
     longReleaseDetected := longReleaseDetected b; repeatTriggered := repeatTriggered b;
     longPressReported := v |}.

(** The member initialisers of the constructor, lines 36-49: the state a
    freshly constructed button starts in. *)
Definition initial (cfg : Config) : Button :=
  {| currentRepeatInterval := repeatIntervalStart cfg;
     lastUpdateTime := 0; edgeTime := 0; lastRepeatTime := 0; lastAccelUpdate := 0;
     rawState := false; debouncing := false; currentPressed := false;
     longPressActive := false; shortPressDetected := false;
     releaseDetected := false; longPressDetected := false;
     longReleaseDetected := false; repeatTriggered := false;
     longPressReported := false |}.

(** The constructor, on a target whose [int] has the width [target]:
    arguments are stored at their declared width. *)
Definition OptaButton (target : IntWidth) (mode : ButtonInputMode) (inputPin : Z)
    (label : string) (debounceMs : Z) (inverted : bool)
    (longPressMs repeatStartMs repeatMinMs accelRate : Z) : Config * Button :=
  let cfg :=
    {| inputMode := mode; inputID := inputPin mod 2 ^ 8; name := label;
       debounceTime := to_uint16 debounceMs; invertedLogic := inverted;
       longPressThreshold := to_uint16 longPressMs;
       repeatIntervalStart := to_uint16 repeatStartMs;
       repeatIntervalMin := to_uint16 repeatMinMs;
       acceleration := accelRate mod 2 ^ 8;
       intWidth := target |} in
  (cfg, initial cfg).

(** The header's default arguments. *)
Definition OptaButton_default (target : IntWidth) (mode : ButtonInputMode)
    (inputPin : Z) (label : string) : Config * Button :=
  OptaButton target mode inputPin label 20 false 800 100 8 100.

(** ** The host platform *)

(** What the host answers at the instant of a call.  [lastRefreshToken] is
    the identifier read at lines 172 and 180 of [OptaButton.cpp]: it is
    declared nowhere in the repository (the static declared at line 164 is
    [lastExpRefreshToken]), so its value is taken from outside; this code
    never writes it.  [maxExpansionNum] stands for the OptaBlue constant
    [OPTA_CONTROLLER_MAX_EXPANSION_NUM] and [opta] for the build switch
    [OPTA == 1]. *)
Record Host : Type := {
  millis : Z;
  pinHigh : Z -> bool;
  lastRefreshToken : Z;
  maxExpansionNum : nat;
  opta : bool
}.

(** What [getExpansion] can hand out: a mechanical digital expansion (the
    conversion to [DigitalMechExpansion] is valid), a solid-state one (the
    conversion to [DigitalStSolidExpansion] is valid), or anything else. *)
Inductive ExpansionType : Type := DigitalMech | DigitalStSolid | OtherExpansion.

(** An expansion module held by the controller: its type, the levels on its
    input terminals, and the input image last fetched over the bus. *)
Record Expansion : Type := {
  expType : ExpansionType;
  terminals : list bool;
  inputImage : list bool
}.

(** [updateDigitalInputs] fetches the terminals into the image;
    [digitalRead] answers from the image. *)
Definition updateDigitalInputs (e : Expansion) : Expansion :=
  {| expType := expType e; terminals := terminals e; inputImage := terminals e |}.

Definition expDigitalRead (e : Expansion) (ch : Z) : bool :=
  nth (Z.to_nat ch) (inputImage e) false.

(** State shared by every button: the file static [g_optaExpRefreshToken],
    the function statics [lastTokenMs] (in [update]) and
    [lastExpRefreshToken] (in [readInput]), the controller's expansions, and
    a ghost log with the token value at each [updateDigitalInputs] call. *)
Record Shared : Type := {
  g_optaExpRefreshToken : Z;
  lastTokenMs : Z;
  lastExpRefreshToken : Z;
  expansions : list Expansion;
  refreshLog : list Z
}.

Definition startup (exps : list Expansion) : Shared :=
  {| g_optaExpRefreshToken := 0; lastTokenMs := 0; lastExpRefreshToken := 0;
     expansions := exps; refreshLog := [] |}.

(** ** Operations *)

(** [begin]: the pin mode requested from the host, if any. *)
Inductive PinMode : Type := INPUT | INPUT_PULLUP.

Definition begin (cfg : Config) : option (Z * PinMode) :=
  match inputMode cfg with
  | GPIO => Some (inputID cfg, INPUT_PULLUP)
  | OPTA_CTL => Some (inputID cfg, INPUT)
  | EXP_DIG => None
  end.

Fixpoint set_nth {A : Type} (i : nat) (x : A) (l : list A) : list A :=
  match l, i with
  | [], _ => []
  | _ :: t, O => x :: t
  | h :: t, S j => h :: set_nth j x t
  end.

(** Lines 172-176 and 180-184: the gated refresh of expansion [i], then the
    read of the channel from its input image. *)
Definition refreshAndRead (host : Host) (id : Z) (i : nat) (e : Expansion)
    (sh : Shared) : bool * Shared :=
  if negb (g_optaExpRefreshToken sh =? lastRefreshToken host) then
    let e' := updateDigitalInputs e in
    (expDigitalRead e' id,
     {| g_optaExpRefreshToken := g_optaExpRefreshToken sh;
        lastTokenMs := lastTokenMs sh;
        lastExpRefreshToken := g_optaExpRefreshToken sh;
        expansions := set_nth i e' (expansions sh);
        refreshLog := refreshLog sh ++ [g_optaExpRefreshToken sh] |})
  else (expDigitalRead e id, sh).

(** Lines 167-187: the loop over the expansion slots, [n] iterations left,
    at index [i].  The first slot holding a mechanical or solid-state
    digital expansion answers; with none, [raw] keeps its initial [false]. *)
Fixpoint expansionLoop (host : Host) (id : Z) (n i : nat) (sh : Shared)
    : bool * Shared :=
  match n with
  | O => (false, sh)
  | S n' =>
      match nth_error (expansions sh) i with
      | Some e =>
          match expType e with
          | DigitalMech => refreshAndRead host id i e sh
          | DigitalStSolid => refreshAndRead host id i e sh
          | OtherExpansion => expansionLoop host id n' (S i) sh
          end
      | None => expansionLoop host id n' (S i) sh
      end
  end.

(** [readInput], lines 151-192. *)
Definition readInput (cfg : Config) (host : Host) (sh : Shared) : bool * Shared :=
  let '(raw, sh') :=
    match inputMode cfg with
    | GPIO => (negb (pinHigh host (inputID cfg)), sh)
    | OPTA_CTL => (pinHigh host (inputID cfg), sh)
    | EXP_DIG =>
        if opta host
        then expansionLoop host (inputID cfg) (maxExpansionNum host) 0 sh
        else (false, sh)
    end in
  (if invertedLogic cfg then negb raw else raw, sh').

(** Lines 72-76. *)
Definition clearEvents (b : Button) : Button :=
  set_repeatTriggered false
    (set_longReleaseDetected false
       (set_longPressDetected false
          (set_releaseDetected false
             (set_shortPressDetected false b)))).

(** Lines 84-88: the token gate. *)
Definition advanceToken (now : Z) (sh : Shared) : Shared :=
  if negb (now =? lastTokenMs sh) then
    {| g_optaExpRefreshToken := to_uint32 (g_optaExpRefreshToken sh + 1);
       lastTokenMs := now;
       lastExpRefreshToken := lastExpRefreshToken sh;
       expansions := expansions sh;
       refreshLog := refreshLog sh |}
  else sh.

(** The elapsed-time tests of [update]. *)
Definition tooSoon (now : Z) (b : Button) : bool :=
  sub32 now (lastUpdateTime b) <? LOOP_INTERVAL_MS.
Definition debounceOver (cfg : Config) (now : Z) (b : Button) : bool :=
  debounceTime cfg <=? sub32 now (edgeTime b).
Definition longPressDue (cfg : Config) (now : Z) (b : Button) : bool :=
  longPressThreshold cfg <=? sub32 now (edgeTime b).
Definition repeatDue (now : Z) (b : Button) : bool :=
  currentRepeatInterval b <=? sub32 now (lastRepeatTime b).
Definition accelDue (now : Z) (b : Button) : bool :=
  1000 <=? sub32 now (lastAccelUpdate b).

(** Lines 94-113: edge detection. *)
Definition detectEdge (cfg : Config) (now : Z) (pressed : bool) (b : Button)
    : Button :=
  if negb (Bool.eqb pressed (rawState b)) && negb (debouncing b) then
    let b := set_rawState pressed b in
    let b := set_debouncing true b in
    let b := set_edgeTime now b in
    if pressed then
      let b := set_shortPressDetected true b in
      let b := set_currentPressed true b in
      let b := set_longPressActive false b in
      let b := set_currentRepeatInterval (repeatIntervalStart cfg) b in
      let b := set_lastRepeatTime now b in
      set_lastAccelUpdate now b
    else
      let b := set_releaseDetected true b in
      let b := set_longReleaseDetected (longPressActive b) b in
      let b := set_currentPressed false b in
      let b := set_longPressActive false b in
      set_longPressReported false b
  else b.

(** Lines 116-118: leaving debounce. *)
Definition endDebounce (cfg : Config) (now : Z) (b : Button) : Button :=
  if debouncing b && debounceOver cfg now b then set_debouncing false b else b.

(** Lines 123-129: entering the long press. *)
Definition enterLongPress (cfg : Config) (now : Z) (b : Button) : Button :=
  if negb (longPressReported b) && longPressDue cfg now b then
    let b := set_longPressDetected true b in
    let b := set_longPressActive true b in
    let b := set_longPressReported true b in
    let b := set_lastRepeatTime now b in
    set_lastAccelUpdate now b
  else b.

(** Lines 132-135: one repeat. *)
Definition fireRepeat (now : Z) (b : Button) : Button :=
  if longPressActive b && repeatDue now b then
    let b := set_repeatTriggered true b in
    set_lastRepeatTime (add32 (lastRepeatTime b) (currentRepeatInterval b)) b
  else b.

(** Lines 142-144: the interval an acceleration step stores when the
    current one is [cur].  Both operands of [max] are converted to [int],
    the first after the promoted subtraction; the greater is stored back
    into a [uint16_t]. *)
Definition steppedInterval (cfg : Config) (cur : Z) : Z :=
  to_uint16
    (Z.max (to_int (intWidth cfg)
              (promotedDiff (intWidth cfg) cur (acceleration cfg)))
           (to_int (intWidth cfg) (repeatIntervalMin cfg))).

(** Lines 138-146: one acceleration step. *)
Definition accelerate (cfg : Config) (now : Z) (b : Button) : Button :=
  if longPressActive b && accelDue now b
     && (repeatIntervalMin cfg <? currentRepeatInterval b) then
    let b :=
      set_currentRepeatInterval
        (steppedInterval cfg (currentRepeatInterval b)) b in
    set_lastAccelUpdate now b
  else b.

(** Lines 94-147: what [update] does with the reading [pressed]. *)
Definition onReading (cfg : Config) (now : Z) (pressed : bool) (b : Button)
    : Button :=
  let b := detectEdge cfg now pressed b in
  let b := endDebounce cfg now b in
  if negb (debouncing b) && currentPressed b then
    let b := enterLongPress cfg now b in
    let b := fireRepeat now b in
    accelerate cfg now b
  else b.

(** [update], lines 70-148. *)
Definition update (cfg : Config) (host : Host) (sh : Shared) (b : Button)
    : Shared * Button :=
  let b := clearEvents b in
  let now := millis host in
  if tooSoon now b then (sh, b)
  else
    let b := set_lastUpdateTime now b in
    let sh := advanceToken now sh in
    let '(pressed, sh) := readInput cfg host sh in
    (sh, onReading cfg now pressed b).

(** The query functions. *)
Definition isShortPressed (b : Button) : bool := shortPressDetected b.
Definition isReleased (b : Button) : bool := releaseDetected b.
Definition isLongPressed (b : Button) : bool := longPressDetected b.
Definition isLongReleased (b : Button) : bool := longReleaseDetected b.
Definition isRepeating (b : Button) : bool := repeatTriggered b.
Definition getLabel (cfg : Config) : string := name cfg.

(** ** Polling with the readings given

    The button's side of [update] when the clock shows [now] and
    [readInput] answers [pressed]: [update] with the shared state left
    aside (see [update_poll] and [updates_run]). *)
Definition poll (cfg : Config) (now : Z) (pressed : bool) (b : Button) : Button :=
  let b := clearEvents b in
  if tooSoon now b then b
  else onReading cfg now pressed (set_lastUpdateTime now b).

(** A run of polls, oldest first: the state after each. *)
Fixpoint run (cfg : Config) (polls : list (Z * bool)) (b : Button) : list Button :=
  match polls with
  | [] => []
  | (now, pressed) :: rest =>
      let b' := poll cfg now pressed b in b' :: run cfg rest b'
  end.

(** A sequence of calls of [update] on one button, each under the host and
    the shared state it finds (other buttons may have run in between): the
    state of the button after each, and the clock value and reading of each
    call. *)
Fixpoint updates (cfg : Config) (calls : list (Host * Shared)) (b : Button)
    : list Button :=
  match calls with
  | [] => []
  | (host, sh) :: rest =>
      let b' := snd (update cfg host sh b) in b' :: updates cfg rest b'
  end.

Definition readings (cfg : Config) (calls : list (Host * Shared))
    : list (Z * bool) :=
  map (fun c =>
         (millis (fst c),
          fst (readInput cfg (fst c) (advanceToken (millis (fst c)) (snd c)))))
      calls.

(** The state a run, or a sequence of calls, ends in. *)
Definition final (cfg : Config) (polls : list (Z * bool)) (b : Button) : Button :=
  last (run cfg polls b) b.

Definition finalState (cfg : Config) (calls : list (Host * Shared)) (b : Button)
    : Button :=
  last (updates cfg calls b) b.

(** How many polls of a trace raised a given flag. *)
Definition count (flag : Button -> bool) (trace : list Button) : nat :=
  length (filter flag trace).

(** ** Vocabulary of the properties *)

(** Every member other than the five event flags is the same in [b] and [b']. *)
Definition unchangedButFlags (b b' : Button) : Prop :=
  currentRepeatInterval b' = currentRepeatInterval b /\
  lastUpdateTime b' = lastUpdateTime b /\
  edgeTime b' = edgeTime b /\
  lastRepeatTime b' = lastRepeatTime b /\
  lastAccelUpdate b' = lastAccelUpdate b /\
  rawState b' = rawState b /\
  debouncing b' = debouncing b /\
  currentPressed b' = currentPressed b /\
  longPressActive b' = longPressActive b /\
  longPressReported b' = longPressReported b.

(** The configuration members hold values of their declared widths. *)
Definition validConfig (cfg : Config) : Prop :=
  0 <= inputID cfg < 2 ^ 8 /\
  0 <= debounceTime cfg < 2 ^ 16 /\
  0 <= longPressThreshold cfg < 2 ^ 16 /\
  0 <= repeatIntervalStart cfg < 2 ^ 16 /\
  0 <= repeatIntervalMin cfg < 2 ^ 16 /\
  0 <= acceleration cfg < 2 ^ 8.

(** The clock is a [uint32_t]. *)
Definition validHost (host : Host) : Prop := 0 <= millis host < 2 ^ 32.

(** The states a button can be in: the constructor's, and whatever [update]
    makes of them under any host and shared state. *)
Inductive reachable (cfg : Config) : Button -> Prop :=
| reach_initial : reachable cfg (initial cfg)
| reach_update (host : Host) (sh : Shared) (b : Button) :
    reachable cfg b -> reachable cfg (snd (update cfg host sh b)).

(** What holds of every reachable state. *)
Definition consistent (cfg : Config) (b : Button) : Prop :=
  rawState b = currentPressed b /\
  (longPressActive b = true ->
     currentPressed b = true /\ debouncing b = false /\
     longPressReported b = true) /\
  (longPressReported b = true -> currentPressed b = true) /\
  0 <= currentRepeatInterval b <= repeatIntervalStart cfg.

(** ** Runs in true time

    A run is described by the true times of its polls, in ms; the clock
    shows each time reduced modulo [2 ^ 32]. *)

Definition clocked (polls : list (Z * bool)) : list (Z * bool) :=
  map (fun p => (to_uint32 (fst p), snd p)) polls.

(** Polls at the times [ts], all with the same reading. *)
Definition reading (pressed : bool) (ts : list Z) : list (Z * bool) :=
  map (fun t => (t, pressed)) ts.

(** The times [ts] increase strictly, starting above [prev]. *)
Fixpoint ascending (prev : Z) (ts : list Z) : Prop :=
  match ts with
  | [] => True
  | t :: rest => prev < t /\ ascending t rest
  end.

(** Every call of the sequence raises the repeat flag and moves the
    last-repeat stamp forward by exactly the repeat interval in force at
    that call. *)
Fixpoint eachFiresAndAdvances (cfg : Config) (calls : list (Host * Shared))
    (b : Button) : Prop :=
  match calls with
  | [] => True
  | (host, sh) :: rest =>
      let b' := snd (update cfg host sh b) in
      isRepeating b' = true /\
      lastRepeatTime b' = add32 (lastRepeatTime b) (currentRepeatInterval b) /\
      eachFiresAndAdvances cfg rest b'
  end.

(** The same of a run of polls. *)
Fixpoint firesAlong (cfg : Config) (polls : list (Z * bool)) (b : Button)
    : Prop :=
  match polls with
  | [] => True
  | (now, pressed) :: rest =>
      let b' := poll cfg now pressed b in
      isRepeating b' = true /\
      lastRepeatTime b' = add32 (lastRepeatTime b) (currentRepeatInterval b) /\
      firesAlong cfg rest b'
  end.

(** None of the slots the loop of [readInput] visits holds a digital
    expansion, mechanical or solid-state. *)
Definition noDigitalExpansion (host : Host) (sh : Shared) : Prop :=
  forall (i : nat) (e : Expansion),
    (i < maxExpansionNum host)%nat ->
    nth_error (expansions sh) i = Some e ->
    expType e = OtherExpansion.

(** The same state with its four stamps moved [k] ticks along the clock. *)
Definition shiftClock (k : Z) (b : Button) : Button :=
  set_lastUpdateTime (add32 (lastUpdateTime b) k)
    (set_edgeTime (add32 (edgeTime b) k)
       (set_lastRepeatTime (add32 (lastRepeatTime b) k)
          (set_lastAccelUpdate (add32 (lastAccelUpdate b) k) b))).

(** A poll that reports no edge. *)
Definition noEdgeEvent (b : Button) : Prop :=
  isShortPressed b = false /\ isReleased b = false.

(** The button at rest: released, out of debounce, no long press pending. *)
Definition idle (b : Button) : Prop :=
  rawState b = false /\ debouncing b = false /\ currentPressed b = false /\
  longPressActive b = false /\ longPressReported b = false.

(** One press-hold-release cycle, by the true times of its polls: the poll
    that first reads the key pressed, the later polls that read it pressed,
    the poll that first reads it released, and the later polls that read it
    released. *)
Record Cycle : Type := {
  pressAt : Z;
  holdAt : list Z;
  releaseAt : Z;
  restAt : list Z
}.

Definition cyclePolls (c : Cycle) : list (Z * bool) :=
  (pressAt c, true) :: reading true (holdAt c)
    ++ (releaseAt c, false) :: reading false (restAt c).


(** A boolean as a number of events. *)
Definition once (x : bool) : nat := if x then 1 else 0.


(** The key is held: pressed at true time [t0], last polled at [t]. *)
Definition holding (cfg : Config) (t0 t : Z) (b : Button) : Prop :=
  rawState b = true /\ currentPressed b = true /\
  edgeTime b = to_uint32 t0 /\ lastUpdateTime b = to_uint32 t /\
  debouncing b = negb (debounceTime cfg <=? t - t0) /\
  longPressReported b
  = (debounceTime cfg <=? t - t0) && (longPressThreshold cfg <=? t - t0) /\
  longPressActive b = longPressReported b.


(** ** A concrete set-up: one button with the default timings on pin 2 of
       an Opta *)

Definition demoCfg : Config := fst (OptaButton_default Int32 GPIO 2 "key").

(** The host when the true time is [t] ms and every pin is at level [high]. *)
Definition hostAt (t : Z) (high : bool) : Host :=
  {| millis := to_uint32 t; pinHigh := fun _ => high; lastRefreshToken := 0;
     maxExpansionNum := 5; opta := true |}.

(** The button after its first poll, at 5 ms, with the key down. *)
Definition pressedAt5 : Button :=
  snd (update demoCfg (hostAt 5 false) (startup []) (initial demoCfg)).

(** The same button polled at 1 ms with the key down and again at 801 ms,
    still down: the long press has just begun.  Then polled at 1801 ms. *)
Definition heldAt801 : Button :=
  snd (update demoCfg (hostAt 801 false) (startup [])
         (snd (update demoCfg (hostAt 1 false) (startup []) (initial demoCfg)))).

Definition heldAt1801 : Button :=
  snd (update demoCfg (hostAt 1801 false) (startup []) heldAt801).

(** ** A concrete set-up: buttons on the channels of a digital expansion *)

Definition expCfg (channel : Z) (inverted : bool) : Config :=
  fst (OptaButton Int32 EXP_DIG channel "exp" 20 inverted 800 100 8 100).

(** A mechanical digital expansion with channel 0 energised, not yet read. *)
Definition mechModule : Expansion :=
  {| expType := DigitalMech; terminals := [true; false];
     inputImage := [false; false] |}.

(** A module that is no digital expansion. *)
Definition analogModule : Expansion :=
  {| expType := OtherExpansion; terminals := []; inputImage := [] |}.

(** An Opta host at true time [t]; the undeclared [lastRefreshToken] reads
    [v]. *)
Definition optaHost (v t : Z) : Host :=
  {| millis := to_uint32 t; pinHigh := fun _ => false; lastRefreshToken := v;
     maxExpansionNum := 5; opta := true |}.

(** Two buttons, on channels 0 and 1 of the expansion, polled one after the
    other within the tick [t]: the shared state after the first and after
    the second call. *)
Definition afterFirst (v t : Z) : Shared :=
  fst (update (expCfg 0 false) (optaHost v t) (startup [mechModule])
         (initial (expCfg 0 false))).

Definition afterSecond (v t : Z) : Shared :=
  fst (update (expCfg 1 false) (optaHost v t) (afterFirst v t)
         (initial (expCfg 1 false))).

(** Two presses of the demo button, each held for about a second. *)
Definition firstCycle : Cycle :=
  {| pressAt := 1; holdAt := [400; 801; 1000]; releaseAt := 1200;
     restAt := [1210; 1225] |}.


(** A host and shared state under which [readInput] answers [pressed] for
    the configuration [cfg] when the clock shows [now]. *)
Definition hostReading (cfg : Config) (now : Z) (pressed : bool) : Host :=
  {| millis := now;
     pinHigh := fun _ =>
       match inputMode cfg with
       | GPIO => negb (xorb pressed (invertedLogic cfg))
       | _ => xorb pressed (invertedLogic cfg)
       end;
     lastRefreshToken := 0; maxExpansionNum := 1; opta := true |}.

Definition sharedReading (cfg : Config) (pressed : bool) : Shared :=
  let levels :=
    repeat (xorb pressed (invertedLogic cfg)) (S (Z.to_nat (inputID cfg))) in
  startup [{| expType := DigitalMech; terminals := levels; inputImage := levels |}].


(** The times [from], [from + 1], ..., [from + n - 1]. *)
Definition ticks (from : Z) (n : nat) : list Z :=
  map (fun i => from + Z.of_nat i) (seq 0 n).

(** The demo button on a clock that shows 1000 at power-up: the key goes
    down at once, is polled every millisecond for two seconds, and is read
    released at 3000. *)
Definition timeline : list Button :=
  run demoCfg (clocked (reading true (ticks 1000 2000) ++ [(3000, false)]))
    (initial demoCfg).

(** Calls of [update] that realise given polls: one host and shared state
    per clock value and reading. *)
Definition callsFor (cfg : Config) (polls : list (Z * bool))
    : list (Host * Shared) :=
  map (fun p => (hostReading cfg (fst p) (snd p), sharedReading cfg (snd p)))
      polls.

(** ** A concrete set-up: a slow repeat on an AVR board

    On a target with a 16-bit [int]: repeats start 32800 ms apart and are to
    speed up by 200 ms per second down to 32790 ms.  The key goes down at
    1 ms; the button is polled at 801 ms (the long press begins) and at
    1801 ms (the first acceleration step is due). *)
Definition avrCfg : Config :=
  fst (OptaButton Int16 GPIO 2 "key" 20 false 800 32800 32790 200).

Definition avrAt801 : Button :=
  snd (update avrCfg (hostAt 801 false) (startup [])
         (snd (update avrCfg (hostAt 1 false) (startup []) (initial avrCfg)))).

Definition avrAt1801 : Button :=
  snd (update avrCfg (hostAt 1801 false) (startup []) avrAt801).

(** ** Further vocabulary *)

(** A call that reports nothing: all five accessors read false. *)
Definition silent (b : Button) : Prop :=
  isShortPressed b = false /\ isReleased b = false /\
  isLongPressed b = false /\ isLongReleased b = false /\
  isRepeating b = false.

(** One pass of the sketch's [loop] over several buttons while the clock
    stands at one reading: each button's [update] in turn, the shared state
    handed from one to the next. *)
Fixpoint updateAll (host : Host) (buttons : list (Config * Button))
    (sh : Shared) : Shared * list Button :=
  match buttons with
  | [] => (sh, [])
  | (cfg, b) :: rest =>
      let '(sh1, b1) := update cfg host sh b in
      let '(sh2, bs) := updateAll host rest sh1 in
      (sh2, b1 :: bs)
  end.

(** Whether the call of [update] runs for at least one of the buttons, that
    is, gets past the rate limit of line 79. *)
Definition anyRuns (host : Host) (buttons : list (Config * Button)) : bool :=
  existsb (fun p => negb (tooSoon (millis host) (snd p))) buttons.

(** The demo button just after the press at 1 ms. *)
Definition pressedAt1 : Button :=
  snd (update demoCfg (hostAt 1 false) (startup []) (initial demoCfg)).

(** The demo button with the acceleration step set to 0, held from 1 ms:
    its state after the polls at 1, 801 and 1801 ms. *)
Definition steadyCfg : Config :=
  fst (OptaButton Int32 GPIO 2 "key" 20 false 800 100 8 0).

Definition steadyAt1801 : Button :=
  snd (update steadyCfg (hostAt 1801 false) (startup [])
         (snd (update steadyCfg (hostAt 801 false) (startup [])
                 (snd (update steadyCfg (hostAt 1 false) (startup [])
                         (initial steadyCfg)))))).

(** Two digital expansions: the first reads channel 0 released, the second
    reads it pressed. *)
Definition firstModule : Expansion :=
  {| expType := DigitalStSolid; terminals := [false; false];
     inputImage := [false; false] |}.

Definition secondModule : Expansion :=
  {| expType := DigitalMech; terminals := [true; true];
     inputImage := [true; true] |}.

(** The cycle [c] is a tap for a button in state [b]: its first poll runs;
    the polls up to the release follow one another in time within less
    than [2 ^ 32] ms; and the last poll that reads the key pressed comes
    with the debounce window elapsed but the long-press threshold not yet
    reached since the press. *)
Definition tapFrom (cfg : Config) (b : Button) (c : Cycle) : Prop :=
  tooSoon (to_uint32 (pressAt c)) b = false /\
  ascending (pressAt c) (holdAt c ++ [releaseAt c]) /\
  releaseAt c - pressAt c < 2 ^ 32 /\
  debounceTime cfg <= last (holdAt c) (pressAt c) - pressAt c /\
  last (holdAt c) (pressAt c) - pressAt c < longPressThreshold cfg.

(** The events of a tap: one short press and one release, nothing else. *)
Definition tapEvents (trace : list Button) : Prop :=
  count isShortPressed trace = 1%nat /\
  count isReleased trace = 1%nat /\
  count isLongPressed trace = 0%nat /\
  count isLongReleased trace = 0%nat /\
  count isRepeating trace = 0%nat.

(** A tap of the demo button: down at 1 ms, up at 300 ms. *)
Definition tapCycle : Cycle :=
  {| pressAt := 1; holdAt := [100; 250]; releaseAt := 300; restAt := [310; 5000] |}.

(** * Properties *)

(** ** Machine arithmetic *)

Lemma to_uint32_range (z : Z) : 0 <= to_uint32 z < 2 ^ 32.
Proof. unfold to_uint32. apply Z.mod_pos_bound. reflexivity. Qed.

Lemma to_uint32_small (z : Z) : 0 <= z < 2 ^ 32 -> to_uint32 z = z.
Proof. intros H. unfold to_uint32. now apply Z.mod_small. Qed.

Lemma to_uint16_small (z : Z) : 0 <= z < 2 ^ 16 -> to_uint16 z = z.
Proof. intros H. unfold to_uint16. now apply Z.mod_small. Qed.

Lemma sub32_range (a b : Z) : 0 <= sub32 a b < 2 ^ 32.
Proof. apply to_uint32_range. Qed.

Lemma sub32_self (a : Z) : sub32 a a = 0.
Proof. unfold sub32, to_uint32. now rewrite Z.sub_diag. Qed.

(** The difference of two clock readings is the true elapsed time, as long
    as that is below [2 ^ 32] ms, wherever the counter wrapped. *)
Lemma sub32_elapsed (t0 t : Z) :
  0 <= t - t0 < 2 ^ 32 -> sub32 (to_uint32 t) (to_uint32 t0) = t - t0.
Proof.
  intros H. unfold sub32, to_uint32.
  rewrite <- Zminus_mod. now apply Z.mod_small.
Qed.

Lemma add32_elapsed (t d : Z) : add32 (to_uint32 t) d = to_uint32 (t + d).
Proof. unfold add32, to_uint32. now rewrite Zplus_mod_idemp_l. Qed.

Lemma add32_zero (a : Z) : 0 <= a < 2 ^ 32 -> add32 a 0 = a.
Proof. intros H. unfold add32. rewrite Z.add_0_r. now apply to_uint32_small. Qed.

(** Arithmetic of [steppedInterval], the powers of two written out. *)
Ltac width_arith :=
  unfold steppedInterval, to_uint16, to_int, promotedDiff, intBits;
  change (2 ^ (16 - 1)) with 32768; change (2 ^ (32 - 1)) with 2147483648;
  change (2 ^ 16) with 65536 in *; change (2 ^ 32) with 4294967296 in *;
  change (2 ^ 15) with 32768 in *; change (2 ^ 8) with 256 in *;
  Z.to_euclidean_division_equations; lia.

(** The interval an acceleration step stores, at either width of [int],
    is never above the current one. *)
Lemma steppedInterval_shrinks (cfg : Config) (cur : Z) :
  validConfig cfg ->
  repeatIntervalMin cfg < cur -> 0 <= cur < 2 ^ 16 ->
  0 <= steppedInterval cfg cur <= cur.
Proof.
  intros (_ & _ & _ & _ & Hm & Ha) Hlt Hcur.
  destruct (intWidth cfg) eqn:E; unfold steppedInterval; rewrite E; width_arith.
Qed.

(** It is the difference floored at the minimum when [int] has 32 bits or
    the current interval is below [2 ^ 15]. *)
Lemma steppedInterval_exact (cfg : Config) (cur : Z) :
  validConfig cfg ->
  repeatIntervalMin cfg < cur -> 0 <= cur < 2 ^ 16 ->
  intWidth cfg = Int32 \/ cur < 2 ^ 15 ->
  steppedInterval cfg cur
  = Z.max (cur - acceleration cfg) (repeatIntervalMin cfg).
Proof.
  intros (_ & _ & _ & _ & Hm & Ha) Hlt Hcur Hw.
  destruct (intWidth cfg) eqn:E; unfold steppedInterval; rewrite E;
    destruct Hw as [Hw|Hw]; try discriminate Hw; width_arith.
Qed.

(** With a 16-bit [int] an interval of [2 ^ 15] or more converts to a
    negative [int]: the step from 32800 by 200 over a minimum of 32790 stores
    32600, and the step from 40000 by 0 over a minimum of 8 stores 8; with a
    32-bit [int] the latter stores 40000. *)
Example steppedInterval_int16 :
  steppedInterval avrCfg 32800 = 32600 /\
  steppedInterval (fst (OptaButton Int16 GPIO 2 "key" 20 false 800 40000 8 0)) 40000
  = 8 /\
  steppedInterval (fst (OptaButton Int32 GPIO 2 "key" 20 false 800 40000 8 0)) 40000
  = 40000.
Proof. repeat split. Qed.

(** ** Proof tools *)

(** Closed goals are settled by evaluation. *)
Ltac evaluate :=
  vm_compute; first [reflexivity | discriminate | intro; discriminate].

(** Case analysis on the boolean members of a state, before the code is
    run on it: the tests on them then evaluate. *)
Ltac case_state b :=
  let raw := fresh "raw" in
  let deb := fresh "deb" in
  let cp := fresh "cp" in
  let act := fresh "act" in
  let rep := fresh "rep" in
  destruct b as [? ? ? ? ? raw deb cp act ? ? ? ? ? rep];
  destruct raw, deb, cp, act, rep; simpl in *.

(** Assignments and reads of members are carried out; the elapsed-time
    tests are left as comparisons. *)
Ltac eval_members :=
  cbv beta iota zeta delta
    [tooSoon debounceOver longPressDue repeatDue accelDue
     isShortPressed isReleased isLongPressed isLongReleased isRepeating
     set_currentRepeatInterval set_lastUpdateTime set_edgeTime set_lastRepeatTime
     set_lastAccelUpdate set_rawState set_debouncing set_currentPressed
     set_longPressActive set_shortPressDetected set_releaseDetected
     set_longPressDetected set_longReleaseDetected set_repeatTriggered
     set_longPressReported
     currentRepeatInterval lastUpdateTime edgeTime lastRepeatTime lastAccelUpdate
     rawState debouncing currentPressed longPressActive shortPressDetected
     releaseDetected longPressDetected longReleaseDetected repeatTriggered
     longPressReported andb negb orb Bool.eqb] in *.

Ltac case_ifs :=
  repeat match goal with
         | |- context [if (?x <=? ?y) then _ else _] =>
             destruct (x <=? y) eqn:?; eval_members
         | |- context [if (?x <? ?y) then _ else _] =>
             destruct (x <? y) eqn:?; eval_members
         end.

(** The blocks of [update] are run in the order of the source, one at a
    time, each on a state whose members are known. *)
Ltac run_stage f := cbv beta zeta delta [f]; eval_members; case_ifs.

Ltac run_poll :=
  cbv beta zeta delta [poll onReading];
  run_stage clearEvents; run_stage detectEdge; run_stage endDebounce;
  run_stage enterLongPress; run_stage fireRepeat; run_stage accelerate.

(** The outcomes of the tests, as inequalities. *)
Ltac tests_to_props :=
  repeat match goal with
         | H : (_ <=? _) = true |- _ => apply Z.leb_le in H
         | H : (_ <=? _) = false |- _ => apply Z.leb_gt in H
         | H : (_ <? _) = true |- _ => apply Z.ltb_lt in H
         | H : (_ <? _) = false |- _ => apply Z.ltb_ge in H
         end.

Ltac evaluate_all :=
  vm_compute; repeat split; first [reflexivity | discriminate | intro; discriminate].

(** ** One call of [update] *)

(** [update] and [poll] agree on the button. *)
Lemma update_poll (cfg : Config) (host : Host) (sh : Shared) (b : Button) :
  snd (update cfg host sh b)
  = poll cfg (millis host)
      (fst (readInput cfg host (advanceToken (millis host) sh))) b.
Proof.
  unfold update, poll.
  destruct (tooSoon (millis host) (clearEvents b)); [reflexivity|].
  destruct (readInput cfg host (advanceToken (millis host) sh)); reflexivity.
Qed.

(** Any sequence of calls of [update] is the run of [poll] on its clock
    values and readings. *)
Lemma updates_run (cfg : Config) (calls : list (Host * Shared)) (b : Button) :
  updates cfg calls b = run cfg (readings cfg calls) b.
Proof.
  revert b. induction calls as [|[host sh] calls IH]; intros b; [reflexivity|].
  simpl. rewrite <- update_poll, IH. reflexivity.
Qed.

(** A call that comes too soon only clears the flags. *)
Lemma update_skipped (cfg : Config) (host : Host) (sh : Shared) (b : Button) :
  sub32 (millis host) (lastUpdateTime b) < LOOP_INTERVAL_MS ->
  update cfg host sh b = (sh, clearEvents b).
Proof.
  intros H. apply Z.ltb_lt in H.
  unfold update. replace (tooSoon (millis host) (clearEvents b)) with true.
  reflexivity.
Qed.

(** The members of a button other than its five event flags. *)
Lemma clearEvents_frame (b : Button) :
  unchangedButFlags b (clearEvents b).
Proof. unfold unchangedButFlags, clearEvents; simpl; repeat split. Qed.

(** C1, as the code has it: a call made less than [LOOP_INTERVAL_MS] after
    the last call that ran leaves the shared state alone (no token advance,
    no read of the input, no refresh) and leaves every member of the button
    alone except the five event flags, which it clears; all five accessors
    then read false, and a further such call changes nothing more. *)
Theorem update_rate_limited (cfg : Config) (host : Host) (sh : Shared) (b : Button) :
  sub32 (millis host) (lastUpdateTime b) < LOOP_INTERVAL_MS ->
  let b' := snd (update cfg host sh b) in
  fst (update cfg host sh b) = sh /\
  unchangedButFlags b b' /\
  isShortPressed b' = false /\ isReleased b' = false /\
  isLongPressed b' = false /\ isLongReleased b' = false /\
  isRepeating b' = false /\
  update cfg host sh b' = (sh, b').
Proof.
  intros H. cbv zeta. rewrite (update_skipped cfg host sh b H). simpl.
  split; [reflexivity|]. split; [apply clearEvents_frame|].
  repeat (split; [reflexivity|]).
  now rewrite (update_skipped cfg host sh (clearEvents b) H).
Qed.

Lemma update_rate_limited_witness :
  sub32 (millis (hostAt 5 false)) (lastUpdateTime pressedAt5) < LOOP_INTERVAL_MS /\
  isShortPressed (snd (update demoCfg (hostAt 5 false) (startup []) pressedAt5)) = false.
Proof.
  split; [evaluate|].
  apply (update_rate_limited demoCfg (hostAt 5 false) (startup []) pressedAt5).
  evaluate.
Defined.

(** C1 as stated fails: right after a call that reported a short press, a
    second call within the same millisecond mutates the button (it wipes the
    pending event). *)
Lemma update_rate_limited_mutates :
  sub32 (millis (hostAt 5 false)) (lastUpdateTime pressedAt5) < LOOP_INTERVAL_MS /\
  isShortPressed pressedAt5 = true /\
  snd (update demoCfg (hostAt 5 false) (startup []) pressedAt5) <> pressedAt5.
Proof.
  split; [evaluate|]. split; [evaluate|].
  intros E. apply (f_equal shortPressDetected) in E.
  vm_compute in E. discriminate E.
Qed.

(** C10: no call of [update] leaves both the short-press and the release
    flag raised. *)
Theorem short_press_release_exclusive (cfg : Config) (host : Host) (sh : Shared)
    (b : Button) :
  let b' := snd (update cfg host sh b) in
  isShortPressed b' && isReleased b' = false.
Proof.
  cbv zeta. rewrite update_poll.
  generalize (fst (readInput cfg host (advanceToken (millis host) sh))).
  intros pressed. case_state b; destruct pressed; run_poll; reflexivity.
Qed.

Lemma OptaButton_valid (target : IntWidth) (mode : ButtonInputMode) (pin : Z)
    (label : string) (debounceMs : Z) (inverted : bool)
    (longPressMs startMs minMs accel : Z) :
  validConfig
    (fst (OptaButton target mode pin label debounceMs inverted longPressMs startMs
            minMs accel)).
Proof.
  unfold validConfig, OptaButton, to_uint16; simpl.
  repeat split; apply Z.mod_pos_bound; reflexivity.
Qed.

Lemma demoCfg_valid : validConfig demoCfg.
Proof. repeat split; evaluate. Qed.

Lemma hostAt_valid (t : Z) (high : bool) : validHost (hostAt t high).
Proof. apply to_uint32_range. Qed.

(** C3: a call that runs, reads a level different from the recorded raw
    state and finds no debounce in progress records the reading, stamps the
    edge with [now] and starts the debounce window (which a window of 0 ms
    closes at once).  A press raises the short-press flag in this very call,
    sets the pressed state, puts the repeat interval back to its initial
    value and sets the repeat and acceleration stamps to [now].  A release
    raises the release flag in this very call, raises the long-release flag
    exactly when a long press was active, and clears the pressed state, the
    long-press state and the reported guard. *)
Theorem edge_detected (cfg : Config) (host : Host) (sh : Shared) (b : Button) :
  validConfig cfg -> validHost host ->
  let now := millis host in
  let pressed := fst (readInput cfg host (advanceToken now sh)) in
  LOOP_INTERVAL_MS <= sub32 now (lastUpdateTime b) ->
  pressed <> rawState b ->
  debouncing b = false ->
  let b' := snd (update cfg host sh b) in
  rawState b' = pressed /\
  edgeTime b' = now /\
  debouncing b' = (0 <? debounceTime cfg) /\
  (pressed = true ->
     isShortPressed b' = true /\ isReleased b' = false /\
     currentPressed b' = true /\
     currentRepeatInterval b' = repeatIntervalStart cfg /\
     lastRepeatTime b' = now /\ lastAccelUpdate b' = now) /\
  (pressed = false ->
     isReleased b' = true /\ isShortPressed b' = false /\
     isLongReleased b' = longPressActive b /\
     currentPressed b' = false /\ longPressActive b' = false /\
     longPressReported b' = false).
Proof.
  intros Hc Hh. cbv zeta. rewrite update_poll.
  generalize (fst (readInput cfg host (advanceToken (millis host) sh))).
  intros pressed Hrun Hne Hdb.
  destruct Hc as (_ & Hd & Hl & Hs & Hm & Ha). red in Hh.
  pose proof (add32_zero (millis host) Hh) as Hz.
  destruct (0 <? debounceTime cfg) eqn:Ed.
  all: case_state b; try discriminate; destruct pressed; try congruence;
    clear Hne Hdb; run_poll; rewrite ?sub32_self in *; tests_to_props;
    try lia; repeat split; try reflexivity; try discriminate.
  all: replace (repeatIntervalStart cfg) with 0 by lia; exact Hz.
Qed.

Lemma edge_detected_witness :
  validConfig demoCfg /\ validHost (hostAt 5 false) /\
  isShortPressed (snd (update demoCfg (hostAt 5 false) (startup []) (initial demoCfg)))
  = true.
Proof.
  assert (Hc : validConfig demoCfg) by (repeat split; evaluate).
  assert (Hh : validHost (hostAt 5 false)) by (split; evaluate).
  split; [exact Hc|]. split; [exact Hh|].
  apply (edge_detected demoCfg (hostAt 5 false) (startup []) (initial demoCfg) Hc Hh).
  - evaluate.
  - evaluate.
  - reflexivity.
  - reflexivity.
Defined.

(** ** Invariants of the reachable states *)

Lemma poll_consistent (cfg : Config) (now : Z) (pressed : bool) (b : Button) :
  validConfig cfg ->
  repeatIntervalMin cfg <= repeatIntervalStart cfg ->
  consistent cfg b -> consistent cfg (poll cfg now pressed b).
Proof.
  intros Hc Hms (Hraw & Hact & Hrep & Hcur).
  pose proof Hc as (_ & _ & _ & Hs & Hm & Ha).
  assert (Hlo : forall c, 0 <= c <= repeatIntervalStart cfg ->
      repeatIntervalMin cfg < c -> 0 <= steppedInterval cfg c).
  { intros c Hr Hlt. apply (steppedInterval_shrinks cfg c Hc Hlt). lia. }
  assert (Hhi : forall c, 0 <= c <= repeatIntervalStart cfg ->
      repeatIntervalMin cfg < c ->
      steppedInterval cfg c <= repeatIntervalStart cfg).
  { intros c Hr Hlt.
    pose proof (steppedInterval_shrinks cfg c Hc Hlt ltac:(lia)). lia. }
  unfold consistent in *.
  case_state b; try discriminate;
    try (destruct Hact as (? & ? & ?); [reflexivity|]; discriminate);
    try (specialize (Hrep eq_refl); discriminate);
    clear Hraw Hact Hrep;
    destruct pressed; run_poll; tests_to_props;
    repeat split; intros; try reflexivity; try discriminate; try lia;
    first [apply Hlo; lia | apply Hhi; lia].
Qed.

Lemma initial_consistent (cfg : Config) :
  validConfig cfg -> consistent cfg (initial cfg).
Proof.
  intros (_ & _ & _ & Hs & _). unfold consistent, initial; simpl.
  repeat split; intros; try discriminate; lia.
Qed.

(** Where the stored interval is the difference floored at the minimum,
    the interval of a reachable state never lies below the minimum. *)
Lemma poll_floor (cfg : Config) (now : Z) (pressed : bool) (b : Button) :
  validConfig cfg ->
  repeatIntervalMin cfg <= repeatIntervalStart cfg ->
  intWidth cfg = Int32 \/ repeatIntervalStart cfg < 2 ^ 15 ->
  0 <= currentRepeatInterval b <= repeatIntervalStart cfg ->
  repeatIntervalMin cfg <= currentRepeatInterval b ->
  repeatIntervalMin cfg <= currentRepeatInterval (poll cfg now pressed b).
Proof.
  intros Hc Hms Hw Hcur Hfloor.
  pose proof Hc as (_ & _ & _ & Hs & Hm & Ha).
  assert (Hstep : forall c, 0 <= c <= repeatIntervalStart cfg ->
      repeatIntervalMin cfg < c -> repeatIntervalMin cfg <= steppedInterval cfg c).
  { intros c Hr Hlt.
    assert (Hw' : intWidth cfg = Int32 \/ c < 2 ^ 15)
      by (destruct Hw; [now left|right; lia]).
    rewrite (steppedInterval_exact cfg c Hc Hlt ltac:(lia) Hw'). lia. }
  case_state b; destruct pressed; run_poll; tests_to_props; try lia;
    apply Hstep; lia.
Qed.

Lemma reachable_consistent (cfg : Config) (b : Button) :
  validConfig cfg ->
  repeatIntervalMin cfg <= repeatIntervalStart cfg ->
  reachable cfg b -> consistent cfg b.
Proof.
  intros Hc Hms Hr. induction Hr as [|host sh b Hr IH].
  - now apply initial_consistent.
  - rewrite update_poll. now apply poll_consistent.
Qed.

Lemma reachable_floor (cfg : Config) (b : Button) :
  validConfig cfg ->
  repeatIntervalMin cfg <= repeatIntervalStart cfg ->
  intWidth cfg = Int32 \/ repeatIntervalStart cfg < 2 ^ 15 ->
  reachable cfg b ->
  repeatIntervalMin cfg <= currentRepeatInterval b.
Proof.
  intros Hc Hms Hw Hr. induction Hr as [|host sh b Hr IH].
  - simpl. lia.
  - rewrite update_poll. apply poll_floor; try assumption.
    apply (reachable_consistent cfg b Hc Hms Hr).
Qed.

(** ** Polls during a long press *)

(** A poll that runs while the long press is active and the key still reads
    pressed: only the repeat and the acceleration blocks act. *)
Lemma held_poll (cfg : Config) (now : Z) (b : Button) :
  consistent cfg b ->
  longPressActive b = true ->
  tooSoon now b = false ->
  let b' := poll cfg now true b in
  (rawState b' = true /\ debouncing b' = false /\ currentPressed b' = true /\
   longPressActive b' = true /\ longPressReported b' = true /\
   edgeTime b' = edgeTime b /\ lastUpdateTime b' = now) /\
  (shortPressDetected b' = false /\ releaseDetected b' = false /\
   longPressDetected b' = false /\ longReleaseDetected b' = false) /\
  repeatTriggered b' = repeatDue now b /\
  lastRepeatTime b'
  = (if repeatDue now b
     then add32 (lastRepeatTime b) (currentRepeatInterval b)
     else lastRepeatTime b) /\
  currentRepeatInterval b'
  = (if accelDue now b && (repeatIntervalMin cfg <? currentRepeatInterval b)
     then steppedInterval cfg (currentRepeatInterval b)
     else currentRepeatInterval b) /\
  lastAccelUpdate b'
  = (if accelDue now b && (repeatIntervalMin cfg <? currentRepeatInterval b)
     then now else lastAccelUpdate b).
Proof.
  intros (Hraw & Hact & _ & _) Ha Hrun.
  destruct (Hact Ha) as (Hp & Hd & Hr). clear Hact.
  case_state b; try discriminate. clear Hraw Ha Hp Hd Hr.
  cbv zeta. eval_members.
  destruct (currentRepeatInterval0 <=? sub32 now lastRepeatTime0) eqn:E1;
    destruct (1000 <=? sub32 now lastAccelUpdate0) eqn:E2;
    destruct (repeatIntervalMin cfg <? currentRepeatInterval0) eqn:E3;
    run_poll; repeat split; congruence.
Qed.

(** While the long press is active, a poll less than a second after the
    acceleration stamp leaves the interval and the stamp alone, whatever it
    reads. *)
Lemma interval_kept (cfg : Config) (now : Z) (pressed : bool) (b : Button) :
  consistent cfg b ->
  longPressActive b = true ->
  sub32 now (lastAccelUpdate b) < 1000 ->
  currentRepeatInterval (poll cfg now pressed b) = currentRepeatInterval b /\
  lastAccelUpdate (poll cfg now pressed b) = lastAccelUpdate b.
Proof.
  intros (Hraw & Hact & _ & _) Ha Hlt.
  destruct (Hact Ha) as (Hp & Hd & Hr). clear Hact.
  case_state b; try discriminate. clear Hraw Ha Hp Hd Hr.
  destruct pressed; run_poll; tests_to_props; split; try reflexivity; lia.
Qed.

Lemma avrAt801_reachable : reachable avrCfg avrAt801.
Proof. unfold avrAt801. apply reach_update, reach_update, reach_initial. Qed.

(** C7: the floor at the minimum fails where [int] has 16 bits.  An AVR
    button constructed with repeat intervals 32800 ms (initial) and 32790 ms
    (minimum) and acceleration step 200 is held from 1 ms.  After the call
    at 801 ms the long press is active, out of debounce, with the interval
    at 32800.  The call at 1801 ms runs, reads the key pressed, finds 1000 ms
    elapsed since the acceleration stamp, and stores
    [max(int(32800 - 200), int(32790))], where [int(32790)] is negative:
    the interval becomes 32600, below the configured minimum. *)
Theorem acceleration_below_minimum :
  intWidth avrCfg = Int16 /\
  validConfig avrCfg /\
  repeatIntervalMin avrCfg = 32790 /\
  repeatIntervalStart avrCfg = 32800 /\
  acceleration avrCfg = 200 /\
  reachable avrCfg avrAt801 /\
  longPressActive avrAt801 = true /\
  debouncing avrAt801 = false /\
  currentRepeatInterval avrAt801 = 32800 /\
  LOOP_INTERVAL_MS <= sub32 1801 (lastUpdateTime avrAt801) /\
  1000 <= sub32 1801 (lastAccelUpdate avrAt801) /\
  fst (readInput avrCfg (hostAt 1801 false) (advanceToken 1801 (startup []))) = true /\
  avrAt1801 = snd (update avrCfg (hostAt 1801 false) (startup []) avrAt801) /\
  currentRepeatInterval avrAt1801 = 32600 /\
  currentRepeatInterval avrAt1801 < repeatIntervalMin avrCfg /\
  currentRepeatInterval avrAt1801
  <> Z.max (currentRepeatInterval avrAt801 - acceleration avrCfg)
           (repeatIntervalMin avrCfg).
Proof.
  split; [reflexivity|].
  split; [repeat split; evaluate|].
  do 3 (split; [reflexivity|]).
  split; [exact avrAt801_reachable|].
  do 6 (split; [evaluate|]).
  split; [reflexivity|].
  split; [evaluate|]. split; evaluate.
Qed.

Lemma heldAt801_reachable : reachable demoCfg heldAt801.
Proof. unfold heldAt801. apply reach_update, reach_update, reach_initial. Qed.

(** ** Runs *)

Lemma last_cons {A : Type} (a d : A) (l : list A) : last (a :: l) d = last l a.
Proof.
  revert a d. induction l as [|x l IH]; intros a d; [reflexivity|].
  change (last (a :: x :: l) d) with (last (x :: l) d).
  rewrite (IH x d). symmetry. apply IH.
Qed.

Lemma ascending_last (prev : Z) (ts : list Z) :
  ascending prev ts -> prev <= last ts prev.
Proof.
  revert prev. induction ts as [|t ts IH]; intros prev H; simpl in H.
  - simpl. lia.
  - destruct H as (Hlt & Hasc). rewrite last_cons.
    specialize (IH t Hasc). lia.
Qed.

(** A poll at true time [t1] after the last poll at [t] is not skipped. *)
Lemma next_poll_runs (b : Button) (t t1 : Z) :
  lastUpdateTime b = to_uint32 t -> t < t1 -> t1 - t < 2 ^ 32 ->
  tooSoon (to_uint32 t1) b = false.
Proof.
  intros E Hlt Hspan. unfold tooSoon. rewrite E, sub32_elapsed by lia.
  apply Z.ltb_ge. unfold LOOP_INTERVAL_MS. lia.
Qed.

(** No repeat is lost: when [k] intervals have gone by since the
    last-repeat stamp, each of the next [k] polls fires one. *)
Lemma catch_up (cfg : Config) :
  validConfig cfg ->
  repeatIntervalMin cfg <= repeatIntervalStart cfg ->
  forall (ts : list Z) (b : Button) (L t : Z),
    consistent cfg b ->
    longPressActive b = true ->
    lastRepeatTime b = to_uint32 L ->
    lastUpdateTime b = to_uint32 t ->
    L <= t ->
    ascending t ts ->
    last ts t - L < 2 ^ 32 ->
    Z.of_nat (length ts) * currentRepeatInterval b <= hd t ts - L ->
    firesAlong cfg (clocked (reading true ts)) b.
Proof.
  intros Hc Hms. induction ts as [|t1 rest IH];
    intros b L t Hb Ha HL Ht HLt Hasc Hspan Howed; [exact I|].
  simpl in Hasc. destruct Hasc as (Hlt & Hasc).
  rewrite last_cons in Hspan.
  pose proof (ascending_last t1 rest Hasc) as Hlast.
  assert (Hsoon : tooSoon (to_uint32 t1) b = false)
    by (apply (next_poll_runs b t t1 Ht); lia).
  pose proof (poll_consistent cfg (to_uint32 t1) true b Hc Hms Hb) as Hb'.
  destruct (held_poll cfg (to_uint32 t1) b Hb Ha Hsoon)
    as ((_ & _ & _ & Ha' & _ & _ & Ht') & _ & Hfire & Hstamp & Hcur & _).
  cbv zeta in Ha', Ht', Hfire, Hstamp, Hcur.
  pose proof Hb as (_ & _ & _ & Hrange).
  pose proof Hb' as (_ & _ & _ & Hrange').
  pose proof Hc as (_ & _ & _ & Hs & Hm & Hacc).
  set (cur := currentRepeatInterval b) in *.
  assert (Hk : cur <= t1 - L).
  { simpl hd in Howed. rewrite length_cons, Nat2Z.inj_succ in Howed. nia. }
  assert (Hdue : repeatDue (to_uint32 t1) b = true).
  { unfold repeatDue. rewrite HL, sub32_elapsed by lia. apply Z.leb_le. exact Hk. }
  rewrite Hdue in Hfire, Hstamp.
  assert (Hshrink : currentRepeatInterval (poll cfg (to_uint32 t1) true b) <= cur).
  { rewrite Hcur.
    destruct (accelDue (to_uint32 t1) b && (repeatIntervalMin cfg <? cur)) eqn:E;
      [|lia].
    apply andb_prop in E. destruct E as (_ & E). apply Z.ltb_lt in E.
    pose proof (steppedInterval_shrinks cfg cur Hc E ltac:(lia)). lia. }
  simpl. split; [exact Hfire|]. split; [exact Hstamp|].
  apply (IH _ (L + cur) t1); try assumption.
  - rewrite Hstamp, HL. apply add32_elapsed.
  - lia.
  - lia.
  - simpl hd in Howed. rewrite length_cons, Nat2Z.inj_succ in Howed.
    destruct rest as [|t2 rest']; simpl hd.
    + simpl length. lia.
    + simpl in Hasc. destruct Hasc as (Hlt2 & _).
      set (n := Z.of_nat (length (t2 :: rest'))) in *.
      assert (0 <= n) by (subst n; apply Nat2Z.is_nonneg).
      set (cur' := currentRepeatInterval (poll cfg (to_uint32 t1) true b)) in *.
      assert (n * cur' <= n * cur) by (apply Z.mul_le_mono_nonneg_l; lia).
      lia.
Qed.

Lemma firesAlong_readings (cfg : Config) (calls : list (Host * Shared))
    (b : Button) :
  firesAlong cfg (readings cfg calls) b -> eachFiresAndAdvances cfg calls b.
Proof.
  revert b. induction calls as [|[host sh] calls IH]; intros b H; [exact I|].
  simpl in H |- *. rewrite update_poll.
  destruct H as (H1 & H2 & H3). repeat split; try assumption. now apply IH.
Qed.

(** C4: a call that runs while the long press is active (and so out of
    debounce) and still reads the key pressed, with at least the current
    repeat interval elapsed since the last-repeat stamp, raises the repeat
    flag and moves the stamp forward by exactly that interval, not to [now].
    Hence no repeat is lost when polling lags: if [k] intervals have gone by
    at the first of [k] successive calls that read the key pressed (at true
    times [ts], after a last call at [t], last-repeat stamp at [L]), every
    one of the [k] calls fires a repeat and advances the stamp by the
    interval then in force. *)
Theorem repeat_cadence (cfg : Config) (host : Host) (sh : Shared) (b : Button)
    (L t : Z) (ts : list Z) (calls : list (Host * Shared)) :
  validConfig cfg ->
  repeatIntervalMin cfg <= repeatIntervalStart cfg ->
  reachable cfg b ->
  longPressActive b = true ->
  debouncing b = false ->
  (let now := millis host in
   LOOP_INTERVAL_MS <= sub32 now (lastUpdateTime b) ->
   fst (readInput cfg host (advanceToken now sh)) = true ->
   currentRepeatInterval b <= sub32 now (lastRepeatTime b) ->
   let b' := snd (update cfg host sh b) in
   isRepeating b' = true /\
   lastRepeatTime b' = add32 (lastRepeatTime b) (currentRepeatInterval b)) /\
  (lastRepeatTime b = to_uint32 L ->
   lastUpdateTime b = to_uint32 t ->
   L <= t ->
   ascending t ts ->
   last ts t - L < 2 ^ 32 ->
   Z.of_nat (length ts) * currentRepeatInterval b <= hd t ts - L ->
   readings cfg calls = clocked (reading true ts) ->
   eachFiresAndAdvances cfg calls b).
Proof.
  intros Hc Hms Hr Ha Hd.
  pose proof (reachable_consistent cfg b Hc Hms Hr) as Hb.
  split.
  - intros now Hrun Hread Hdue b'.
    assert (Hsoon : tooSoon now b = false) by (apply Z.ltb_ge; exact Hrun).
    assert (Eb : b' = poll cfg now true b).
    { subst b'. rewrite update_poll. fold now. now rewrite Hread. }
    destruct (held_poll cfg now b Hb Ha Hsoon) as (_ & _ & Hfire & Hstamp & _).
    cbv zeta in Hfire, Hstamp. rewrite <- Eb in Hfire, Hstamp.
    assert (E : repeatDue now b = true) by (apply Z.leb_le; exact Hdue).
    rewrite E in Hfire, Hstamp. split; assumption.
  - intros HL Ht HLt Hasc Hspan Howed Hcalls.
    apply firesAlong_readings. rewrite Hcalls.
    now apply (catch_up cfg Hc Hms ts b L t).
Qed.

Lemma repeat_cadence_witness :
  longPressActive heldAt801 = true /\
  lastRepeatTime heldAt801 = to_uint32 801 /\
  eachFiresAndAdvances demoCfg
    (callsFor demoCfg (clocked (reading true [1001; 1002]))) heldAt801.
Proof.
  split; [evaluate|]. split; [evaluate|].
  refine (proj2 (repeat_cadence demoCfg (hostAt 1001 false) (startup []) heldAt801
                   801 801 [1001; 1002]
                   (callsFor demoCfg (clocked (reading true [1001; 1002])))
                   demoCfg_valid _ heldAt801_reachable _ _)
            _ _ _ _ _ _ _).
  - evaluate.
  - evaluate.
  - evaluate.
  - evaluate.
  - evaluate.
  - evaluate.
  - simpl. lia.
  - evaluate.
  - evaluate.
  - evaluate.
Defined.

(** ** Reading the input *)

Lemma expansionLoop_none (host : Host) (id : Z) (sh : Shared) (n i : nat) :
  (forall (j : nat) (e : Expansion),
     (i <= j < i + n)%nat -> nth_error (expansions sh) j = Some e ->
     expType e = OtherExpansion) ->
  expansionLoop host id n i sh = (false, sh).
Proof.
  revert i. induction n as [|n IH]; intros i H; [reflexivity|].
  simpl. destruct (nth_error (expansions sh) i) as [e|] eqn:E.
  - rewrite (H i e) by (try assumption; lia).
    apply IH. intros j e' Hj. apply H. lia.
  - apply IH. intros j e' Hj. apply H. lia.
Qed.

(** C5, as the code has it: an expansion-channel button for which the loop
    finds no digital expansion gets the default raw reading, which then goes
    through the inversion like any other: [readInput] answers not-pressed
    when the inversion flag is clear and pressed when it is set.  Nothing is
    refreshed. *)
Theorem readInput_unclaimed (cfg : Config) (host : Host) (sh : Shared) :
  inputMode cfg = EXP_DIG ->
  noDigitalExpansion host sh ->
  readInput cfg host sh = (invertedLogic cfg, sh).
Proof.
  intros Hmode Hnone. unfold readInput. rewrite Hmode.
  destruct (opta host).
  - rewrite expansionLoop_none.
    + now destruct (invertedLogic cfg).
    + intros j e Hj. apply Hnone. lia.
  - now destruct (invertedLogic cfg).
Qed.

Lemma noDigitalExpansion_analog (v t : Z) :
  noDigitalExpansion (optaHost v t) (startup [analogModule]).
Proof.
  intros i e _ H. destruct i as [|i]; simpl in H.
  - now inversion H.
  - destruct i; discriminate H.
Qed.

Lemma readInput_unclaimed_witness :
  inputMode (expCfg 3 false) = EXP_DIG /\
  fst (readInput (expCfg 3 false) (optaHost 0 9) (startup [analogModule])) = false.
Proof.
  split; [reflexivity|].
  rewrite (readInput_unclaimed (expCfg 3 false) (optaHost 0 9)
             (startup [analogModule]) eq_refl (noDigitalExpansion_analog 0 9)).
  reflexivity.
Defined.

(** C5 as stated fails: with the inversion flag set, a channel that no
    module claims reads as pressed. *)
Lemma readInput_unclaimed_inverted :
  inputMode (expCfg 3 true) = EXP_DIG /\
  noDigitalExpansion (optaHost 0 9) (startup [analogModule]) /\
  invertedLogic (expCfg 3 true) = true /\
  fst (readInput (expCfg 3 true) (optaHost 0 9) (startup [analogModule])) = true.
Proof.
  split; [reflexivity|]. split; [apply noDigitalExpansion_analog|].
  split; reflexivity.
Qed.

(** ** The refresh token *)

(** Within one tick the token advances at most once, whoever polls. *)
Lemma advanceToken_once (now : Z) (sh : Shared) :
  advanceToken now (advanceToken now sh) = advanceToken now sh.
Proof.
  unfold advanceToken. destruct (now =? lastTokenMs sh) eqn:E; simpl.
  - now rewrite E.
  - now rewrite Z.eqb_refl.
Qed.

Lemma refreshAndRead_token (host : Host) (id : Z) (i : nat) (e : Expansion)
    (sh : Shared) :
  g_optaExpRefreshToken (snd (refreshAndRead host id i e sh))
  = g_optaExpRefreshToken sh /\
  lastTokenMs (snd (refreshAndRead host id i e sh)) = lastTokenMs sh.
Proof.
  unfold refreshAndRead.
  destruct (g_optaExpRefreshToken sh =? lastRefreshToken host); simpl; now split.
Qed.

Lemma expansionLoop_token (host : Host) (id : Z) (n i : nat) (sh : Shared) :
  g_optaExpRefreshToken (snd (expansionLoop host id n i sh))
  = g_optaExpRefreshToken sh /\
  lastTokenMs (snd (expansionLoop host id n i sh)) = lastTokenMs sh.
Proof.
  revert i. induction n as [|n IH]; intros i; simpl; [now split|].
  destruct (nth_error (expansions sh) i) as [e|]; [|apply IH].
  destruct (expType e); try apply refreshAndRead_token. apply IH.
Qed.

(** [readInput] never touches the token. *)
Lemma readInput_token (cfg : Config) (host : Host) (sh : Shared) :
  g_optaExpRefreshToken (snd (readInput cfg host sh)) = g_optaExpRefreshToken sh /\
  lastTokenMs (snd (readInput cfg host sh)) = lastTokenMs sh.
Proof.
  unfold readInput.
  destruct (inputMode cfg); simpl; try now split.
  destruct (opta host); simpl; [|now split].
  pose proof (expansionLoop_token host (inputID cfg) (maxExpansionNum host) 0 sh) as H.
  destruct (expansionLoop host (inputID cfg) (maxExpansionNum host) 0 sh); exact H.
Qed.

(** Two calls of [update] at the same clock reading, by any two buttons:
    the second finds the token where the first left it. *)
Lemma token_same_within_tick (cfgA cfgB : Config) (host : Host) (sh : Shared)
    (bA bB : Button) :
  LOOP_INTERVAL_MS <= sub32 (millis host) (lastUpdateTime bA) ->
  let sh1 := fst (update cfgA host sh bA) in
  let sh2 := fst (update cfgB host sh1 bB) in
  g_optaExpRefreshToken sh2 = g_optaExpRefreshToken sh1.
Proof.
  intros Hrun. cbv zeta.
  assert (Hsoon : tooSoon (millis host) (clearEvents bA) = false)
    by (apply Z.ltb_ge; exact Hrun).
  assert (E1 : lastTokenMs (fst (update cfgA host sh bA)) = millis host).
  { unfold update. rewrite Hsoon.
    pose proof (readInput_token cfgA host (advanceToken (millis host) sh)) as (_ & H).
    destruct (readInput cfgA host (advanceToken (millis host) sh)) as [p s'].
    simpl in *. rewrite H. unfold advanceToken.
    destruct (millis host =? lastTokenMs sh) eqn:E; simpl; [|reflexivity].
    apply Z.eqb_eq in E. now symmetry. }
  set (sh1 := fst (update cfgA host sh bA)) in *.
  unfold update at 1.
  destruct (tooSoon (millis host) (clearEvents bB)); [reflexivity|].
  assert (E2 : advanceToken (millis host) sh1 = sh1).
  { unfold advanceToken. rewrite E1, Z.eqb_refl. reflexivity. }
  rewrite E2.
  pose proof (readInput_token cfgB host sh1) as (H & _).
  destruct (readInput cfgB host sh1) as [p s']. exact H.
Qed.

(** C9 at the failing input: two expansion-channel buttons polled within
    the tick 7.  Both calls see the same token, 1, and yet both invoke
    [updateDigitalInputs]: the gate compares the token with
    [lastRefreshToken], which nothing updates, instead of the
    [lastExpRefreshToken] it maintains. *)
Theorem refresh_twice_in_one_generation :
  g_optaExpRefreshToken (afterFirst 0 7) = 1 /\
  g_optaExpRefreshToken (afterSecond 0 7) = 1 /\
  lastExpRefreshToken (afterFirst 0 7) = 1 /\
  refreshLog (afterFirst 0 7) = [1] /\
  refreshLog (afterSecond 0 7) = [1; 1].
Proof. repeat split; vm_compute; reflexivity. Qed.

(** The same for any two polls, whatever [lastRefreshToken] reads: a call
    of an expansion-channel button that runs while the token differs from
    it refreshes the first digital expansion, although
    [lastExpRefreshToken] already equals the token. *)
Lemma update_refreshes (cfg : Config) (host : Host) (sh : Shared) (b : Button)
    (e : Expansion) :
  inputMode cfg = EXP_DIG ->
  opta host = true ->
  (0 < maxExpansionNum host)%nat ->
  nth_error (expansions sh) 0 = Some e ->
  expType e <> OtherExpansion ->
  LOOP_INTERVAL_MS <= sub32 (millis host) (lastUpdateTime b) ->
  g_optaExpRefreshToken (advanceToken (millis host) sh) <> lastRefreshToken host ->
  let sh' := fst (update cfg host sh b) in
  refreshLog sh' = refreshLog sh ++ [g_optaExpRefreshToken sh'] /\
  lastExpRefreshToken sh' = g_optaExpRefreshToken sh' /\
  nth_error (expansions sh') 0 = Some (updateDigitalInputs e).
Proof.
  intros Hmode Hopta Hmax Hslot Htype Hrun Hne.
  assert (Hsoon : tooSoon (millis host) (clearEvents b) = false)
    by (apply Z.ltb_ge; exact Hrun).
  cbv zeta. unfold update. rewrite Hsoon.
  set (sh0 := advanceToken (millis host) sh) in *.
  assert (Hexp : expansions sh0 = expansions sh /\ refreshLog sh0 = refreshLog sh).
  { subst sh0. unfold advanceToken.
    destruct (millis host =? lastTokenMs sh); simpl; now split. }
  destruct Hexp as (Hexp & Hlog).
  unfold readInput. rewrite Hmode, Hopta.
  destruct (maxExpansionNum host) as [|n]; [lia|].
  cbn [expansionLoop]. rewrite Hexp, Hslot.
  assert (E : refreshAndRead host (inputID cfg) 0 e sh0
              = (expDigitalRead (updateDigitalInputs e) (inputID cfg),
                 {| g_optaExpRefreshToken := g_optaExpRefreshToken sh0;
                    lastTokenMs := lastTokenMs sh0;
                    lastExpRefreshToken := g_optaExpRefreshToken sh0;
                    expansions := set_nth 0 (updateDigitalInputs e) (expansions sh0);
                    refreshLog := refreshLog sh0 ++ [g_optaExpRefreshToken sh0] |})).
  { unfold refreshAndRead. apply Z.eqb_neq in Hne. now rewrite Hne. }
  destruct (expType e); try congruence; rewrite E; cbn [fst snd refreshLog
    g_optaExpRefreshToken lastExpRefreshToken expansions]; rewrite Hlog, Hexp;
    (split; [reflexivity|]; split; [reflexivity|]);
    destruct (expansions sh); [discriminate Hslot| |discriminate Hslot|];
    reflexivity.
Qed.

(** ** Clock wraparound *)



Lemma sub32_shift (a b k : Z) : sub32 (add32 a k) (add32 b k) = sub32 a b.
Proof.
  unfold sub32, add32, to_uint32. rewrite <- Zminus_mod.
  f_equal. lia.
Qed.

Lemma add32_shift (a k c : Z) : add32 (add32 a k) c = add32 (add32 a c) k.
Proof.
  unfold add32, to_uint32. rewrite !Zplus_mod_idemp_l. f_equal. lia.
Qed.

Ltac shift_stage f :=
  cbv beta zeta delta [f]; eval_members; rewrite ?sub32_shift;
  repeat (match goal with
          | |- context [if (?x <=? ?y) then _ else _] => destruct (x <=? y) eqn:?
          | |- context [if (?x <? ?y) then _ else _] => destruct (x <? y) eqn:?
          end; eval_members; rewrite ?sub32_shift).

(** [update] sees the clock only through differences modulo [2 ^ 32]:
    moving the clock and every stamp by the same number of ticks, across a
    wrap or not, moves the stamps of the result and changes nothing else. *)
Lemma poll_shift (cfg : Config) (now k : Z) (pressed : bool) (b : Button) :
  poll cfg (add32 now k) pressed (shiftClock k b)
  = shiftClock k (poll cfg now pressed b).
Proof.
  case_state b; destruct pressed;
    cbv beta zeta delta [poll onReading shiftClock];
    shift_stage clearEvents; shift_stage detectEdge; shift_stage endDebounce;
    shift_stage enterLongPress; shift_stage fireRepeat; shift_stage accelerate;
    rewrite ?(add32_shift _ k); reflexivity.
Qed.

(** ** Debounce *)

Lemma final_nil (cfg : Config) (b : Button) : final cfg [] b = b.
Proof. reflexivity. Qed.

Lemma final_cons (cfg : Config) (now : Z) (pressed : bool)
    (rest : list (Z * bool)) (b : Button) :
  final cfg ((now, pressed) :: rest) b = final cfg rest (poll cfg now pressed b).
Proof. unfold final. simpl. apply last_cons. Qed.

(** While a debounce is in progress no poll reports an edge or records a new
    raw state; the debounce ends in the first poll that runs once the window
    has elapsed. *)
Lemma debouncing_poll (cfg : Config) (now : Z) (pressed : bool) (b : Button) :
  debouncing b = true ->
  let b' := poll cfg now pressed b in
  isShortPressed b' = false /\ isReleased b' = false /\
  rawState b' = rawState b /\ edgeTime b' = edgeTime b /\
  debouncing b' = negb (negb (tooSoon now b) && debounceOver cfg now b) /\
  lastUpdateTime b' = (if tooSoon now b then lastUpdateTime b else now).
Proof.
  intros Hd. case_state b; try discriminate; clear Hd; cbv zeta; eval_members;
    destruct (sub32 now lastUpdateTime0 <? LOOP_INTERVAL_MS) eqn:E1;
    destruct (debounceTime cfg <=? sub32 now edgeTime0) eqn:E2;
    destruct pressed; run_poll; repeat split; congruence.
Qed.

(** A poll that runs, out of debounce, on a changed reading: the edge is
    recorded and reported at once. *)
Lemma edge_poll (cfg : Config) (now : Z) (pressed : bool) (b : Button) :
  tooSoon now b = false ->
  pressed <> rawState b ->
  debouncing b = false ->
  let b' := poll cfg now pressed b in
  rawState b' = pressed /\ edgeTime b' = now /\ lastUpdateTime b' = now /\
  debouncing b' = negb (debounceTime cfg <=? 0) /\
  isShortPressed b' = pressed /\ isReleased b' = negb pressed.
Proof.
  intros Hrun Hne Hd.
  case_state b; try discriminate; destruct pressed; try congruence;
    clear Hne Hd; cbv zeta; eval_members;
    destruct (debounceTime cfg <=? 0) eqn:E;
    run_poll; rewrite ?sub32_self in *; repeat split; congruence.
Qed.

(** The debounce window, for runs of polls. *)
Lemma debounce_window_polls (cfg : Config) (b0 : Button) (e : Z) (r : bool)
    (polls : list (Z * bool)) :
  0 < debounceTime cfg ->
  debouncing b0 = false ->
  r <> rawState b0 ->
  LOOP_INTERVAL_MS <= sub32 e (lastUpdateTime b0) ->
  Forall (fun p => sub32 (fst p) e < debounceTime cfg) polls ->
  let b := poll cfg e r b0 in
  let b1 := final cfg polls b in
  (edgeTime b = e /\ debouncing b = true) /\
  Forall (fun b' => noEdgeEvent b' /\ debouncing b' = true /\
                    edgeTime b' = e /\ rawState b' = r)
         (run cfg polls b) /\
  (forall (now : Z) (pressed : bool),
     LOOP_INTERVAL_MS <= sub32 now (lastUpdateTime b1) ->
     debounceTime cfg <= sub32 now e ->
     let b2 := poll cfg now pressed b1 in
     noEdgeEvent b2 /\ debouncing b2 = false /\
     (forall (now' : Z) (pressed' : bool),
        LOOP_INTERVAL_MS <= sub32 now' now ->
        pressed' <> r ->
        let b3 := poll cfg now' pressed' b2 in
        isShortPressed b3 = pressed' /\ isReleased b3 = negb pressed')).
Proof.
  intros Hwin Hd0 Hne Hrun Hall b b1.
  assert (Hsoon : tooSoon e b0 = false) by (apply Z.ltb_ge; exact Hrun).
  destruct (edge_poll cfg e r b0 Hsoon Hne Hd0) as (Hraw & Hedge & _ & Hdeb & _).
  fold b in Hraw, Hedge, Hdeb.
  assert (Hdeb' : debouncing b = true).
  { rewrite Hdeb. apply negb_true_iff, Z.leb_gt. exact Hwin. }
  clear Hdeb.
  (* along the window: still debouncing, same edge stamp, same raw state *)
  assert (Hinv : forall (ps : list (Z * bool)) (s : Button),
    debouncing s = true -> edgeTime s = e -> rawState s = r ->
    Forall (fun p => sub32 (fst p) e < debounceTime cfg) ps ->
    Forall (fun b' => noEdgeEvent b' /\ debouncing b' = true /\
                      edgeTime b' = e /\ rawState b' = r) (run cfg ps s) /\
    debouncing (final cfg ps s) = true /\ edgeTime (final cfg ps s) = e /\
    rawState (final cfg ps s) = r).
  { induction ps as [|[now pressed] ps IH]; intros s Hs He Hr Hps.
    - simpl. rewrite final_nil. repeat split; try assumption. constructor.
    - pose proof (Forall_inv Hps) as Hp. pose proof (Forall_inv_tail Hps) as Hps'.
      simpl in Hp.
      destruct (debouncing_poll cfg now pressed s Hs)
        as (Hsp & Hrel & Hraw' & Hedge' & Hdeb'' & _).
      cbv zeta in Hsp, Hrel, Hraw', Hedge', Hdeb''.
      assert (Hstill : debouncing (poll cfg now pressed s) = true).
      { rewrite Hdeb''. unfold debounceOver. rewrite He.
        replace (debounceTime cfg <=? sub32 now e) with false
          by (symmetry; apply Z.leb_gt; exact Hp).
        now rewrite andb_false_r. }
      rewrite He in Hedge'. rewrite Hr in Hraw'.
      destruct (IH (poll cfg now pressed s) Hstill Hedge' Hraw' Hps')
        as (Hrest & Hfin).
      rewrite final_cons. simpl. split; [|exact Hfin].
      constructor; [|exact Hrest].
      repeat split; assumption. }
  destruct (Hinv polls b Hdeb' Hedge Hraw Hall) as (Htrace & Hd1 & He1 & Hr1).
  fold b1 in Hd1, He1, Hr1.
  split; [split; assumption|]. split; [exact Htrace|].
  intros now pressed Hrun1 Hover b2.
  destruct (debouncing_poll cfg now pressed b1 Hd1)
    as (Hsp & Hrel & Hraw2 & _ & Hdeb2 & Hlast2).
  fold b2 in Hsp, Hrel, Hraw2, Hdeb2, Hlast2.
  assert (Hsoon1 : tooSoon now b1 = false) by (apply Z.ltb_ge; exact Hrun1).
  assert (Hover1 : debounceOver cfg now b1 = true).
  { unfold debounceOver. rewrite He1. apply Z.leb_le. exact Hover. }
  rewrite Hsoon1 in Hdeb2, Hlast2. rewrite Hover1 in Hdeb2. simpl in Hdeb2.
  split; [split; assumption|]. split; [exact Hdeb2|].
  intros now' pressed' Hrun2 Hne2 b3.
  assert (Hsoon2 : tooSoon now' b2 = false).
  { unfold tooSoon. rewrite Hlast2. apply Z.ltb_ge. exact Hrun2. }
  assert (Hne3 : pressed' <> rawState b2) by (rewrite Hraw2, Hr1; exact Hne2).
  destruct (edge_poll cfg now' pressed' b2 Hsoon2 Hne3 Hdeb2)
    as (_ & _ & _ & _ & H1 & H2).
  split; assumption.
Qed.

(** C6: after a call that recorded an edge at [e], with a debounce window
    of [debounceTime] > 0 ms, let the input bounce at will: no call whose
    clock reading is less than the window past [e] reports a short press or
    a release, and none records a new raw state or ends the debounce.  The
    first call that runs with the window elapsed ends the debounce, still
    without an edge event; a changed reading is then reported by the call
    after it. *)
Theorem debounce_window (cfg : Config) (host0 : Host) (sh0 : Shared)
    (b0 : Button) (calls : list (Host * Shared)) :
  let e := millis host0 in
  let r := fst (readInput cfg host0 (advanceToken e sh0)) in
  0 < debounceTime cfg ->
  debouncing b0 = false ->
  r <> rawState b0 ->
  LOOP_INTERVAL_MS <= sub32 e (lastUpdateTime b0) ->
  Forall (fun c => sub32 (millis (fst c)) e < debounceTime cfg) calls ->
  let b := snd (update cfg host0 sh0 b0) in
  let b1 := finalState cfg calls b in
  (edgeTime b = e /\ debouncing b = true) /\
  Forall (fun b' => noEdgeEvent b' /\ debouncing b' = true /\
                    edgeTime b' = e /\ rawState b' = r)
         (updates cfg calls b) /\
  (forall (host : Host) (sh : Shared),
     LOOP_INTERVAL_MS <= sub32 (millis host) (lastUpdateTime b1) ->
     debounceTime cfg <= sub32 (millis host) e ->
     let b2 := snd (update cfg host sh b1) in
     noEdgeEvent b2 /\ debouncing b2 = false /\
     (forall (host' : Host) (sh' : Shared),
        let r' := fst (readInput cfg host' (advanceToken (millis host') sh')) in
        LOOP_INTERVAL_MS <= sub32 (millis host') (millis host) ->
        r' <> r ->
        let b3 := snd (update cfg host' sh' b2) in
        isShortPressed b3 = r' /\ isReleased b3 = negb r')).
Proof.
  intros e r Hwin Hd0 Hne Hrun Hall b b1.
  assert (Hpolls : Forall (fun p => sub32 (fst p) e < debounceTime cfg)
                     (readings cfg calls)).
  { unfold readings. apply Forall_map. exact Hall. }
  pose proof (debounce_window_polls cfg b0 e r (readings cfg calls)
                Hwin Hd0 Hne Hrun Hpolls) as H.
  cbv zeta in H. subst b b1. unfold finalState.
  rewrite update_poll, updates_run. fold e r.
  destruct H as (H1 & H2 & H3). split; [exact H1|]. split; [exact H2|].
  intros host sh Hrun1 Hover. cbv zeta. rewrite update_poll.
  destruct (H3 (millis host)
              (fst (readInput cfg host (advanceToken (millis host) sh)))
              Hrun1 Hover) as (H4 & H5 & H6).
  split; [exact H4|]. split; [exact H5|].
  intros host' sh' Hrun2 Hne2. rewrite update_poll. now apply H6.
Qed.

Lemma debounce_window_witness :
  0 < debounceTime demoCfg /\
  Forall (fun b' => noEdgeEvent b' /\ debouncing b' = true /\
                    edgeTime b' = 5 /\ rawState b' = true)
         (updates demoCfg
            (callsFor demoCfg [(6, false); (7, true); (20, false)])
            (snd (update demoCfg (hostAt 5 false) (startup []) (initial demoCfg)))).
Proof.
  split; [evaluate|].
  refine (proj1 (proj2 (debounce_window demoCfg (hostAt 5 false) (startup [])
                          (initial demoCfg)
                          (callsFor demoCfg [(6, false); (7, true); (20, false)])
                          _ _ _ _ _))).
  - evaluate.
  - evaluate.
  - evaluate.
  - evaluate.
  - repeat constructor; evaluate.
Defined.

(** ** One press, held, released *)

Lemma run_app (cfg : Config) (p1 p2 : list (Z * bool)) (b : Button) :
  run cfg (p1 ++ p2) b = run cfg p1 b ++ run cfg p2 (final cfg p1 b).
Proof.
  revert b. induction p1 as [|[now pressed] p1 IH]; intros b; [reflexivity|].
  simpl. rewrite IH, final_cons. reflexivity.
Qed.


Lemma count_cons (flag : Button -> bool) (b : Button) (trace : list Button) :
  count flag (b :: trace) = ((if flag b then 1 else 0) + count flag trace)%nat.
Proof. unfold count. simpl. now destruct (flag b). Qed.

Lemma count_app (flag : Button -> bool) (t1 t2 : list Button) :
  count flag (t1 ++ t2) = (count flag t1 + count flag t2)%nat.
Proof. unfold count. now rewrite filter_app, length_app. Qed.

Lemma ascending_app (prev x : Z) (l1 l2 : list Z) :
  ascending prev (l1 ++ x :: l2) ->
  ascending prev l1 /\ last l1 prev < x /\ ascending x l2.
Proof.
  revert prev. induction l1 as [|a l1 IH]; intros prev H; simpl in H.
  - simpl. tauto.
  - destruct H as (Hlt & H). destruct (IH a H) as (H1 & H2 & H3).
    rewrite last_cons. simpl. tauto.
Qed.

(** The poll that first reads the key pressed. *)
Lemma press_poll (cfg : Config) (t0 : Z) (b : Button) :
  idle b ->
  tooSoon (to_uint32 t0) b = false ->
  let b' := poll cfg (to_uint32 t0) true b in
  holding cfg t0 t0 b' /\
  isShortPressed b' = true /\ isReleased b' = false /\ isLongReleased b' = false /\
  isLongPressed b' = longPressReported b'.
Proof.
  intros (Hraw & Hdeb & Hcp & Hact & Hrep) Hrun. unfold holding.
  rewrite Z.sub_diag.
  case_state b; try discriminate. clear Hraw Hdeb Hcp Hact Hrep.
  cbv zeta; eval_members.
  destruct (debounceTime cfg <=? 0) eqn:E1;
    destruct (longPressThreshold cfg <=? 0) eqn:E2;
    run_poll; rewrite ?sub32_self in *; repeat split; congruence.
Qed.

(** A poll that runs while the key is read pressed, as before. *)
Lemma pressed_poll (cfg : Config) (now : Z) (b : Button) :
  rawState b = true ->
  currentPressed b = true ->
  longPressActive b = longPressReported b ->
  tooSoon now b = false ->
  let b' := poll cfg now true b in
  (rawState b' = true /\ currentPressed b' = true /\
   edgeTime b' = edgeTime b /\ lastUpdateTime b' = now) /\
  debouncing b' = debouncing b && negb (debounceOver cfg now b) /\
  longPressReported b'
  = longPressReported b || (negb (debouncing b') && longPressDue cfg now b) /\
  longPressActive b' = longPressReported b' /\
  (isShortPressed b' = false /\ isReleased b' = false /\
   isLongReleased b' = false) /\
  isLongPressed b' = negb (longPressReported b) && longPressReported b'.
Proof.
  intros Hraw Hcp Hact Hrun.
  case_state b; try discriminate; clear Hraw Hcp Hact;
    cbv zeta; eval_members;
    destruct (debounceTime cfg <=? sub32 now edgeTime0) eqn:E1;
    destruct (longPressThreshold cfg <=? sub32 now edgeTime0) eqn:E2;
    run_poll; repeat split; congruence.
Qed.

Lemma hold_poll (cfg : Config) (t0 t t1 : Z) (b : Button) :
  holding cfg t0 t b ->
  t0 <= t -> t < t1 -> t1 - t0 < 2 ^ 32 ->
  let b' := poll cfg (to_uint32 t1) true b in
  holding cfg t0 t1 b' /\
  (isShortPressed b' = false /\ isReleased b' = false /\
   isLongReleased b' = false) /\
  isLongPressed b' = negb (longPressReported b) && longPressReported b'.
Proof.
  intros (Hraw & Hcp & He & Hu & Hd & Hr & Ha) H0 H1 Hspan.
  assert (Hsoon : tooSoon (to_uint32 t1) b = false)
    by (apply (next_poll_runs b t t1 Hu); lia).
  destruct (pressed_poll cfg (to_uint32 t1) b Hraw Hcp Ha Hsoon)
    as ((Hraw' & Hcp' & He' & Hu') & Hd' & Hr' & Ha' & Hnone & Hlp).
  cbv zeta in *. split; [|split; assumption].
  unfold holding. rewrite Hraw', Hcp', He', Hu', Ha', Hr', Hd'.
  unfold debounceOver, longPressDue. rewrite He, sub32_elapsed by lia.
  rewrite Hr, Hd.
  repeat (split; [reflexivity|]).
  destruct (debounceTime cfg <=? t - t0) eqn:E1;
    destruct (debounceTime cfg <=? t1 - t0) eqn:E2;
    destruct (longPressThreshold cfg <=? t - t0) eqn:E3;
    destruct (longPressThreshold cfg <=? t1 - t0) eqn:E4;
    tests_to_props; simpl; repeat split; try reflexivity; lia.
Qed.

(** While the key is held, no poll reports a short press or a release, and
    the long press is reported by the poll that sets the guard. *)
Lemma hold_run (cfg : Config) (t0 : Z) (ts : list Z) :
  forall (t : Z) (b : Button),
    holding cfg t0 t b ->
    t0 <= t -> ascending t ts -> last ts t - t0 < 2 ^ 32 ->
    let trace := run cfg (clocked (reading true ts)) b in
    let b' := final cfg (clocked (reading true ts)) b in
    holding cfg t0 (last ts t) b' /\
    count isShortPressed trace = 0%nat /\
    count isReleased trace = 0%nat /\
    count isLongReleased trace = 0%nat /\
    count (fun s => isReleased s && isLongReleased s) trace = 0%nat /\
    (count isLongPressed trace + once (longPressReported b)
     = once (longPressReported b'))%nat.
Proof.
  induction ts as [|t1 ts IH]; intros t b Hb H0 Hasc Hspan; cbv zeta.
  - simpl. rewrite final_nil. split; [exact Hb|]. repeat split; reflexivity.
  - simpl in Hasc. destruct Hasc as (Hlt & Hasc). rewrite last_cons in *.
    pose proof (ascending_last t1 ts Hasc) as Hlast.
    destruct (hold_poll cfg t0 t t1 b Hb H0 Hlt ltac:(lia))
      as (Hb1 & (Hs & Hr & Hlr) & Hlp).
    cbv zeta in Hb1, Hs, Hr, Hlr, Hlp.
    destruct (IH t1 _ Hb1 ltac:(lia) Hasc Hspan) as (Hfin & Cs & Cr & Clr & Crl & Clp).
    cbv zeta in Hfin, Cs, Cr, Clr, Crl, Clp.
    simpl. rewrite final_cons, !count_cons.
    rewrite Hs, Hr, Hlr, Hlp, Cs, Cr, Clr, Crl. simpl.
    repeat (split; [assumption || reflexivity|]).
    rewrite <- Clp.
    destruct (longPressReported b) eqn:E1;
      destruct (longPressReported (poll cfg (to_uint32 t1) true b)) eqn:E2;
      simpl; try lia.
    (* the guard, once set, stays set while the key is held *)
    exfalso. destruct Hb as (_ & _ & _ & _ & _ & Hrep & _).
    destruct Hb1 as (_ & _ & _ & _ & _ & Hrep1 & _).
    rewrite E1 in Hrep. rewrite E2 in Hrep1.
    symmetry in Hrep, Hrep1.
    apply andb_prop in Hrep. destruct Hrep as (Hx & Hy).
    apply andb_false_iff in Hrep1. tests_to_props.
    destruct Hrep1 as [Hz|Hz]; tests_to_props; lia.
Qed.




Lemma clocked_cons (t : Z) (pressed : bool) (ps : list (Z * bool)) :
  clocked ((t, pressed) :: ps) = (to_uint32 t, pressed) :: clocked ps.
Proof. reflexivity. Qed.

Lemma run_cons (cfg : Config) (now : Z) (pressed : bool) (ps : list (Z * bool))
    (b : Button) :
  run cfg ((now, pressed) :: ps) b
  = poll cfg now pressed b :: run cfg ps (poll cfg now pressed b).
Proof. reflexivity. Qed.

Lemma clocked_app (p1 p2 : list (Z * bool)) :
  clocked (p1 ++ p2) = clocked p1 ++ clocked p2.
Proof. apply map_app. Qed.





(** ** Every poll is a call of [update] *)

Lemma nth_repeat_last (x d : bool) (n : nat) : nth n (repeat x (S n)) d = x.
Proof. induction n as [|n IH]; [reflexivity|exact IH]. Qed.

Lemma advanceToken_expansions (now : Z) (sh : Shared) :
  expansions (advanceToken now sh) = expansions sh.
Proof. unfold advanceToken. now destruct (now =? lastTokenMs sh). Qed.

(** Whatever the mode and the inversion, some host makes [readInput] answer
    a given reading. *)
Lemma readInput_realised (cfg : Config) (now : Z) (pressed : bool) :
  fst (readInput cfg (hostReading cfg now pressed)
         (advanceToken now (sharedReading cfg pressed))) = pressed.
Proof.
  unfold readInput.
  destruct (inputMode cfg) eqn:Hmode.
  - unfold hostReading; cbn [pinHigh fst]. rewrite Hmode.
    now destruct pressed, (invertedLogic cfg).
  - unfold hostReading; cbn [pinHigh fst]. rewrite Hmode.
    now destruct pressed, (invertedLogic cfg).
  - cbn [opta maxExpansionNum hostReading expansionLoop].
    rewrite advanceToken_expansions.
    cbn [sharedReading startup expansions nth_error expType].
    unfold refreshAndRead.
    destruct (negb _); unfold expDigitalRead, updateDigitalInputs;
      cbn [fst inputImage terminals];
      rewrite nth_repeat_last; now destruct pressed, (invertedLogic cfg).
Qed.

Lemma poll_realised (cfg : Config) (now : Z) (pressed : bool) (b : Button) :
  snd (update cfg (hostReading cfg now pressed) (sharedReading cfg pressed) b)
  = poll cfg now pressed b.
Proof.
  rewrite update_poll. change (millis (hostReading cfg now pressed)) with now.
  now rewrite readInput_realised.
Qed.

Lemma reachable_poll (cfg : Config) (now : Z) (pressed : bool) (b : Button) :
  reachable cfg b -> reachable cfg (poll cfg now pressed b).
Proof. intros H. rewrite <- poll_realised. now apply reach_update. Qed.

Lemma reachable_final (cfg : Config) (polls : list (Z * bool)) (b : Button) :
  reachable cfg b -> reachable cfg (final cfg polls b).
Proof.
  revert b. induction polls as [|[now pressed] polls IH]; intros b H.
  - exact H.
  - rewrite final_cons. apply IH. now apply reachable_poll.
Qed.

(** So every run of polls is a sequence of calls of [update]. *)
Lemma readings_callsFor (cfg : Config) (polls : list (Z * bool)) :
  readings cfg (callsFor cfg polls) = polls.
Proof.
  induction polls as [|[now pressed] polls IH]; [reflexivity|].
  unfold readings, callsFor in *. cbn [map fst snd].
  change (millis (hostReading cfg now pressed)) with now.
  rewrite readInput_realised. f_equal. exact IH.
Qed.

(** ** The default timings, end to end *)

(** Short press with the first poll; long-press entry 800 ms later and in
    no other poll; first repeat 100 ms after that; the interval drops from
    100 to 8 one second after the entry; 34 repeats in all; release and
    long release together in the last poll. *)
Example default_timeline :
  isShortPressed (nth 0 timeline (initial demoCfg)) = true /\
  count isShortPressed timeline = 1%nat /\
  isLongPressed (nth 800 timeline (initial demoCfg)) = true /\
  count isLongPressed timeline = 1%nat /\
  count isRepeating (firstn 900 timeline) = 0%nat /\
  isRepeating (nth 900 timeline (initial demoCfg)) = true /\
  currentRepeatInterval (nth 1799 timeline (initial demoCfg)) = 100 /\
  currentRepeatInterval (nth 1800 timeline (initial demoCfg)) = 8 /\
  isRepeating (nth 1808 timeline (initial demoCfg)) = true /\
  count isRepeating timeline = 34%nat /\
  isReleased (nth 2000 timeline (initial demoCfg)) = true /\
  isLongReleased (nth 2000 timeline (initial demoCfg)) = true /\
  count isReleased timeline = 1%nat.
Proof. vm_compute. repeat split. Qed.

(** * Further properties of the code *)

(** ** Calls and the clock *)

(** The last-update stamp after a poll. *)
Lemma poll_lastUpdateTime (cfg : Config) (now : Z) (pressed : bool) (b : Button) :
  lastUpdateTime (poll cfg now pressed b)
  = (if tooSoon now b then lastUpdateTime b else now).
Proof.
  case_state b; destruct pressed; eval_members; run_poll; reflexivity.
Qed.

(** X1: a second call of [update] while the clock stands at the same
    reading never runs, whether the first one ran or not: it leaves the
    shared state it is given alone and only clears the event flags, so the
    events of the first call are gone. *)
Theorem update_twice_same_tick (cfg : Config) (host : Host) (sh sh2 : Shared)
    (b : Button) :
  let b1 := snd (update cfg host sh b) in
  update cfg host sh2 b1 = (sh2, clearEvents b1) /\
  silent (snd (update cfg host sh2 b1)).
Proof.
  cbv zeta.
  assert (H : sub32 (millis host) (lastUpdateTime (snd (update cfg host sh b)))
              < LOOP_INTERVAL_MS).
  { rewrite update_poll, poll_lastUpdateTime.
    destruct (tooSoon (millis host) b) eqn:E.
    - apply Z.ltb_lt. exact E.
    - rewrite sub32_self. reflexivity. }
  rewrite (update_skipped cfg host sh2 _ H). split; [reflexivity|].
  unfold silent. simpl. repeat split.
Qed.

(** X2: a freshly constructed button skips a call made while [millis]
    still reads 0.  Its first call at any other clock reading runs, stamps
    the clock, and reports a short press exactly when the input reads
    pressed, never a release. *)
Theorem fresh_first_call (cfg : Config) (host : Host) (sh : Shared) :
  validHost host ->
  let r := fst (readInput cfg host (advanceToken (millis host) sh)) in
  let b' := snd (update cfg host sh (initial cfg)) in
  (millis host = 0 -> update cfg host sh (initial cfg) = (sh, initial cfg)) /\
  (millis host <> 0 ->
     lastUpdateTime b' = millis host /\ isShortPressed b' = r /\
     isReleased b' = false /\ rawState b' = r /\ currentPressed b' = r).
Proof.
  intros Hh r b'. red in Hh. split.
  - intros H0. apply update_skipped. simpl. rewrite H0. reflexivity.
  - intros Hne. subst b'. rewrite update_poll. fold r.
    assert (Hrun : (sub32 (millis host) 0 <? LOOP_INTERVAL_MS) = false).
    { unfold sub32. rewrite Z.sub_0_r, to_uint32_small by exact Hh.
      apply Z.ltb_ge. unfold LOOP_INTERVAL_MS. lia. }
    generalize r. intros p. unfold initial.
    destruct p; eval_members; run_poll; rewrite ?Hrun in *;
      try discriminate; repeat split; reflexivity.
Qed.

Lemma fresh_first_call_witness :
  validHost (hostAt 5 false) /\
  millis (hostAt 5 false) <> 0 /\
  isShortPressed (snd (update demoCfg (hostAt 5 false) (startup []) (initial demoCfg)))
  = fst (readInput demoCfg (hostAt 5 false)
           (advanceToken (millis (hostAt 5 false)) (startup []))).
Proof.
  assert (Hh : validHost (hostAt 5 false)) by (split; evaluate).
  assert (Hne : millis (hostAt 5 false) <> 0) by evaluate.
  split; [exact Hh|]. split; [exact Hne|].
  exact (proj1 (proj2 (proj2 (fresh_first_call demoCfg (hostAt 5 false) (startup [])
                                Hh) Hne))).
Defined.

(** ** What a call never reports *)

(** X3: the five flags of one call are never at odds with each other or
    with the state the call leaves.  A long release comes only with a
    release; a release comes with neither a long-press entry nor a repeat,
    and leaves the button neither pressed nor in a long press; a repeat or a
    long-press entry comes only with the long press active afterwards; a
    short press leaves the button pressed and comes with no long release. *)
Theorem event_flags_coherent (cfg : Config) (host : Host) (sh : Shared)
    (b : Button) :
  let b' := snd (update cfg host sh b) in
  (isLongReleased b' = true -> isReleased b' = true) /\
  (isReleased b' = true ->
     isLongPressed b' = false /\ isRepeating b' = false /\
     currentPressed b' = false /\ longPressActive b' = false) /\
  (isRepeating b' = true -> longPressActive b' = true) /\
  (isLongPressed b' = true ->
     longPressActive b' = true /\ longPressReported b' = true /\
     currentPressed b' = true) /\
  (isShortPressed b' = true ->
     currentPressed b' = true /\ isLongReleased b' = false).
Proof.
  cbv zeta. rewrite update_poll.
  generalize (fst (readInput cfg host (advanceToken (millis host) sh))).
  intros pressed. case_state b; destruct pressed; eval_members; run_poll;
    repeat split; intros; congruence.
Qed.

(** X4: edge events come from edges only.  A call reports a short press
    only if it ran, read the input pressed, had the raw state recorded as
    released and found no debounce in progress; it reports a release only if
    it ran, read the input released, had the raw state recorded as pressed
    and found no debounce in progress.  In particular a call that reads the
    level already recorded reports neither. *)
Theorem edge_events_need_edges (cfg : Config) (host : Host) (sh : Shared)
    (b : Button) :
  let now := millis host in
  let r := fst (readInput cfg host (advanceToken now sh)) in
  let b' := snd (update cfg host sh b) in
  (isShortPressed b' = true ->
     tooSoon now b = false /\ r = true /\ rawState b = false /\
     debouncing b = false) /\
  (isReleased b' = true ->
     tooSoon now b = false /\ r = false /\ rawState b = true /\
     debouncing b = false) /\
  (r = rawState b -> isShortPressed b' = false /\ isReleased b' = false).
Proof.
  cbv zeta. rewrite update_poll.
  generalize (fst (readInput cfg host (advanceToken (millis host) sh))).
  intros pressed. case_state b; destruct pressed; eval_members; run_poll;
    repeat split; intros; congruence.
Qed.

(** X5: the long-press entry is never reported before the threshold has
    elapsed since the recorded edge, nor twice under one guard: a call that
    reports it found the guard unset, ran with
    [now - edgeTime >= longPressThreshold], leaves the button out of
    debounce, and sets the acceleration stamp to [now]; with a repeat
    interval above 0 it reports no repeat of its own and sets the
    last-repeat stamp to [now], so the first repeat waits a full interval. *)
Theorem long_press_entry (cfg : Config) (host : Host) (sh : Shared) (b : Button) :
  let now := millis host in
  let b' := snd (update cfg host sh b) in
  isLongPressed b' = true ->
  tooSoon now b = false /\
  longPressReported b = false /\
  longPressThreshold cfg <= sub32 now (edgeTime b') /\
  debouncing b' = false /\
  lastAccelUpdate b' = now /\
  (0 < currentRepeatInterval b' ->
     isRepeating b' = false /\ lastRepeatTime b' = now).
Proof.
  cbv zeta. rewrite update_poll.
  generalize (fst (readInput cfg host (advanceToken (millis host) sh))).
  intros pressed.
  case_state b; destruct pressed; eval_members; run_poll;
    rewrite ?sub32_self in *; intros; try discriminate; tests_to_props;
    repeat split; intros; try reflexivity; try assumption; try lia.
Qed.

(** X6: a repeat is never reported early.  A call that reports a repeat
    but no long-press entry found the long press active and at least the
    current repeat interval elapsed since the last-repeat stamp, and moves
    the stamp by exactly that interval. *)
Theorem repeat_needs_interval (cfg : Config) (host : Host) (sh : Shared)
    (b : Button) :
  let now := millis host in
  let b' := snd (update cfg host sh b) in
  isRepeating b' = true ->
  isLongPressed b' = false ->
  tooSoon now b = false /\
  longPressActive b = true /\
  currentRepeatInterval b <= sub32 now (lastRepeatTime b) /\
  lastRepeatTime b' = add32 (lastRepeatTime b) (currentRepeatInterval b).
Proof.
  cbv zeta. rewrite update_poll.
  generalize (fst (readInput cfg host (advanceToken (millis host) sh))).
  intros pressed.
  case_state b; destruct pressed; eval_members; run_poll;
    intros; try discriminate; tests_to_props;
    repeat split; try reflexivity; try assumption; try lia.
Qed.

Lemma long_press_entry_witness :
  isLongPressed (snd (update demoCfg (hostAt 801 false) (startup []) pressedAt1))
  = true /\
  longPressThreshold demoCfg
  <= sub32 (millis (hostAt 801 false))
       (edgeTime (snd (update demoCfg (hostAt 801 false) (startup []) pressedAt1))).
Proof.
  assert (H : isLongPressed
                (snd (update demoCfg (hostAt 801 false) (startup []) pressedAt1))
              = true) by evaluate.
  split; [exact H|].
  apply (long_press_entry demoCfg (hostAt 801 false) (startup []) pressedAt1 H).
Defined.

Lemma repeat_needs_interval_witness :
  isRepeating (snd (update demoCfg (hostAt 901 false) (startup []) heldAt801))
  = true /\
  currentRepeatInterval heldAt801
  <= sub32 (millis (hostAt 901 false)) (lastRepeatTime heldAt801).
Proof.
  assert (H1 : isRepeating
                 (snd (update demoCfg (hostAt 901 false) (startup []) heldAt801))
               = true) by evaluate.
  assert (H2 : isLongPressed
                 (snd (update demoCfg (hostAt 901 false) (startup []) heldAt801))
               = false) by evaluate.
  split; [exact H1|].
  apply (repeat_needs_interval demoCfg (hostAt 901 false) (startup []) heldAt801
           H1 H2).
Defined.

(** ** What holds in every state the code can reach *)

Lemma poll_coherent (cfg : Config) (now : Z) (pressed : bool) (b : Button) :
  rawState b = currentPressed b ->
  (longPressActive b = true ->
   longPressReported b = true /\ debouncing b = false) ->
  (longPressReported b = true -> currentPressed b = true) ->
  let b' := poll cfg now pressed b in
  rawState b' = currentPressed b' /\
  (longPressActive b' = true ->
   longPressReported b' = true /\ debouncing b' = false) /\
  (longPressReported b' = true -> currentPressed b' = true).
Proof.
  intros Hraw Hact Hrep.
  case_state b; try discriminate;
    try (destruct Hact as (? & ?); [reflexivity|]; discriminate);
    try (specialize (Hrep eq_refl); discriminate);
    clear Hraw Hact Hrep;
    destruct pressed; eval_members; run_poll;
    repeat split; intros; congruence.
Qed.

Lemma reachable_consistent_free (cfg : Config) (b : Button) :
  reachable cfg b ->
  rawState b = currentPressed b /\
  (longPressActive b = true ->
   longPressReported b = true /\ debouncing b = false) /\
  (longPressReported b = true -> currentPressed b = true).
Proof.
  intros Hr. induction Hr as [|host sh b Hr IH].
  - simpl. repeat split; intros; discriminate.
  - destruct IH as (H1 & H2 & H3). rewrite update_poll.
    now apply poll_coherent.
Qed.

(** X7: in every state a button can reach, under any configuration, the
    debounced pressed state equals the recorded raw state, a long press is
    active only with its guard set and out of debounce, and the guard is set
    only while the button is pressed. *)
Theorem reachable_coherent (cfg : Config) (b : Button) :
  reachable cfg b ->
  currentPressed b = rawState b /\
  (longPressActive b = true ->
   longPressReported b = true /\ debouncing b = false) /\
  (longPressReported b = true -> currentPressed b = true).
Proof.
  intros Hr.
  destruct (reachable_consistent_free cfg b Hr) as (H1 & H2 & H3).
  repeat split; auto; apply H2; assumption.
Qed.

Lemma reachable_coherent_witness :
  reachable demoCfg heldAt801 /\ currentPressed heldAt801 = rawState heldAt801.
Proof.
  split; [exact heldAt801_reachable|].
  exact (proj1 (reachable_coherent demoCfg heldAt801 heldAt801_reachable)).
Defined.

(** X8: with a configuration whose minimum repeat interval does not exceed
    the initial one, the current repeat interval of a reachable state never
    exceeds the initial one, at either width of [int], and so fits its
    [uint16_t]; it never lies below the minimum where [int] has 32 bits, or
    where the initial interval is below [2 ^ 15]. *)
Theorem interval_within_bounds (cfg : Config) (b : Button) :
  validConfig cfg ->
  repeatIntervalMin cfg <= repeatIntervalStart cfg ->
  reachable cfg b ->
  0 <= currentRepeatInterval b <= repeatIntervalStart cfg /\
  currentRepeatInterval b < 2 ^ 16 /\
  (intWidth cfg = Int32 \/ repeatIntervalStart cfg < 2 ^ 15 ->
   repeatIntervalMin cfg <= currentRepeatInterval b).
Proof.
  intros Hc Hms Hr.
  destruct (reachable_consistent cfg b Hc Hms Hr) as (_ & _ & _ & H).
  split; [exact H|]. split.
  - destruct Hc as (_ & _ & _ & Hs & _). lia.
  - intros Hw. now apply reachable_floor.
Qed.

Lemma interval_within_bounds_witness :
  validConfig demoCfg /\
  0 <= currentRepeatInterval heldAt1801 <= repeatIntervalStart demoCfg /\
  repeatIntervalMin demoCfg <= currentRepeatInterval heldAt1801.
Proof.
  split; [exact demoCfg_valid|].
  assert (Hr : reachable demoCfg heldAt1801)
    by (unfold heldAt1801; apply reach_update, heldAt801_reachable).
  assert (Hms : repeatIntervalMin demoCfg <= repeatIntervalStart demoCfg)
    by evaluate.
  split.
  - exact (proj1 (interval_within_bounds demoCfg heldAt1801 demoCfg_valid Hms Hr)).
  - exact (proj2 (proj2 (interval_within_bounds demoCfg heldAt1801 demoCfg_valid
                           Hms Hr)) (or_introl eq_refl)).
Defined.

Lemma poll_interval_fixed (cfg : Config) (now : Z) (pressed : bool) (b : Button) :
  validConfig cfg ->
  (acceleration cfg = 0 /\
   (intWidth cfg = Int32 \/ repeatIntervalStart cfg < 2 ^ 15)) \/
  repeatIntervalStart cfg <= repeatIntervalMin cfg ->
  currentRepeatInterval b = repeatIntervalStart cfg ->
  currentRepeatInterval (poll cfg now pressed b) = repeatIntervalStart cfg.
Proof.
  intros Hc Hoff Hcur.
  pose proof Hc as (_ & _ & _ & Hs & Hm & _).
  assert (Hmax : repeatIntervalMin cfg < repeatIntervalStart cfg ->
      steppedInterval cfg (repeatIntervalStart cfg) = repeatIntervalStart cfg).
  { intros Hlt. destruct Hoff as [(H0 & Hw)|H0]; [|lia].
    rewrite (steppedInterval_exact cfg _ Hc Hlt Hs Hw). lia. }
  case_state b; subst; destruct pressed; eval_members; run_poll;
    tests_to_props; try reflexivity; now apply Hmax.
Qed.

(** X9: acceleration is off when the minimum repeat interval is not below
    the initial one, and also when the step is 0 and either [int] has 32
    bits or the initial interval is below [2 ^ 15]: the current repeat
    interval of every reachable state is then the initial interval. *)
Theorem no_acceleration (cfg : Config) (b : Button) :
  validConfig cfg ->
  (acceleration cfg = 0 /\
   (intWidth cfg = Int32 \/ repeatIntervalStart cfg < 2 ^ 15)) \/
  repeatIntervalStart cfg <= repeatIntervalMin cfg ->
  reachable cfg b ->
  currentRepeatInterval b = repeatIntervalStart cfg.
Proof.
  intros Hc Hoff Hr. induction Hr as [|host sh b Hr IH]; [reflexivity|].
  rewrite update_poll. now apply poll_interval_fixed.
Qed.

Lemma no_acceleration_witness :
  validConfig steadyCfg /\ acceleration steadyCfg = 0 /\
  currentRepeatInterval steadyAt1801 = repeatIntervalStart steadyCfg.
Proof.
  assert (Hc : validConfig steadyCfg) by (repeat split; evaluate).
  split; [exact Hc|]. split; [reflexivity|].
  refine (no_acceleration steadyCfg steadyAt1801 Hc
            (or_introl (conj eq_refl (or_introl eq_refl))) _).
  unfold steadyAt1801. apply reach_update, reach_update, reach_update, reach_initial.
Defined.

(** ** While the input reads one level *)

Lemma released_poll_silent (cfg : Config) (now : Z) (b : Button) :
  rawState b = false -> currentPressed b = false ->
  let b' := poll cfg now false b in
  silent b' /\ rawState b' = false /\ currentPressed b' = false.
Proof.
  intros Hraw Hcp. unfold silent.
  case_state b; try discriminate; clear Hraw Hcp; eval_members; run_poll;
    repeat split; reflexivity.
Qed.

Lemma released_run_silent (cfg : Config) (polls : list (Z * bool)) :
  forall b : Button,
    rawState b = false -> currentPressed b = false ->
    Forall (fun p => snd p = false) polls ->
    Forall silent (run cfg polls b).
Proof.
  induction polls as [|[now pressed] polls IH]; intros b Hraw Hcp Hall;
    [constructor|].
  pose proof (Forall_inv Hall) as Hp. pose proof (Forall_inv_tail Hall) as Hps.
  simpl in Hp. subst pressed.
  destruct (released_poll_silent cfg now b Hraw Hcp) as (Hs & Hraw' & Hcp').
  simpl. constructor; [exact Hs|]. now apply IH.
Qed.

(** X10: as long as [readInput] answers not-pressed, a button whose raw
    and debounced states are released reports nothing at all, in any
    sequence of calls and whatever its timers hold. *)
Theorem silent_while_released (cfg : Config) (calls : list (Host * Shared))
    (b : Button) :
  rawState b = false ->
  currentPressed b = false ->
  Forall (fun p => snd p = false) (readings cfg calls) ->
  Forall silent (updates cfg calls b).
Proof.
  intros Hraw Hcp Hall. rewrite updates_run. now apply released_run_silent.
Qed.

Lemma silent_while_released_witness :
  Forall (fun p => snd p = false)
    (readings demoCfg (callsFor demoCfg [(3, false); (50, false); (900, false)])) /\
  Forall silent
    (updates demoCfg (callsFor demoCfg [(3, false); (50, false); (900, false)])
       (initial demoCfg)).
Proof.
  assert (H : Forall (fun p => snd p = false)
                (readings demoCfg
                   (callsFor demoCfg [(3, false); (50, false); (900, false)])))
    by (repeat constructor).
  split; [exact H|].
  exact (silent_while_released demoCfg _ (initial demoCfg) eq_refl eq_refl H).
Defined.

Lemma pressed_poll_no_release (cfg : Config) (now : Z) (b : Button) :
  let b' := poll cfg now true b in
  isReleased b' = false /\ isLongReleased b' = false.
Proof.
  case_state b; eval_members; run_poll; split; reflexivity.
Qed.

Lemma reading_unclaimed (cfg : Config) (host : Host) (sh : Shared) :
  inputMode cfg = EXP_DIG ->
  noDigitalExpansion host sh ->
  fst (readInput cfg host (advanceToken (millis host) sh)) = invertedLogic cfg.
Proof.
  intros Hmode Hnone. unfold readInput. rewrite Hmode.
  destruct (opta host).
  - rewrite expansionLoop_none.
    + now destruct (invertedLogic cfg).
    + intros j e Hj. rewrite advanceToken_expansions. apply Hnone. lia.
  - now destruct (invertedLogic cfg).
Qed.

(** X11: what an expansion-channel button does when no digital expansion
    is ever found.  Without inversion it stays silent for ever.  With the
    inversion flag set it sees a key that is held for ever: the first call
    at a clock reading other than 0 reports a short press, and no call ever
    reports a release or a long release. *)
Theorem unclaimed_channel_events (cfg : Config) (calls : list (Host * Shared)) :
  inputMode cfg = EXP_DIG ->
  Forall (fun c => noDigitalExpansion (fst c) (snd c)) calls ->
  (invertedLogic cfg = false -> Forall silent (updates cfg calls (initial cfg))) /\
  (invertedLogic cfg = true ->
     Forall (fun b => isReleased b = false /\ isLongReleased b = false)
            (updates cfg calls (initial cfg)) /\
     (forall (host : Host) (sh : Shared) (rest : list (Host * Shared)),
        calls = (host, sh) :: rest ->
        validHost host -> millis host <> 0 ->
        isShortPressed (snd (update cfg host sh (initial cfg))) = true)).
Proof.
  intros Hmode Hall.
  assert (Hread : Forall (fun p => snd p = invertedLogic cfg) (readings cfg calls)).
  { unfold readings. apply Forall_map.
    eapply Forall_impl; [|exact Hall].
    intros [host sh] Hnone. simpl in *. now apply reading_unclaimed. }
  split.
  - intros Hinv. rewrite Hinv in Hread.
    rewrite updates_run. now apply released_run_silent.
  - intros Hinv. rewrite Hinv in Hread. split.
    + rewrite updates_run. clear Hall. generalize (initial cfg).
      induction (readings cfg calls) as [|[now pressed] polls IH]; intros b;
        [constructor|].
      pose proof (Forall_inv Hread) as Hp.
      pose proof (Forall_inv_tail Hread) as Hps. simpl in Hp. subst pressed.
      simpl. constructor; [apply pressed_poll_no_release|now apply IH].
    + intros host sh rest Hcalls Hh Hne. subst calls.
      pose proof (Forall_inv Hall) as Hnone. simpl in Hnone.
      rewrite update_poll, (reading_unclaimed cfg host sh Hmode Hnone), Hinv.
      assert (Hsoon : tooSoon (millis host) (initial cfg) = false).
      { unfold tooSoon, initial, sub32; cbn [lastUpdateTime]. red in Hh.
        rewrite Z.sub_0_r, to_uint32_small by exact Hh.
        apply Z.ltb_ge. unfold LOOP_INTERVAL_MS. lia. }
      destruct (edge_poll cfg (millis host) true (initial cfg) Hsoon)
        as (_ & _ & _ & _ & H & _); [discriminate|reflexivity|exact H].
Qed.

Lemma unclaimed_channel_events_witness :
  inputMode (expCfg 3 false) = EXP_DIG /\
  Forall silent
    (updates (expCfg 3 false)
       [(optaHost 0 9, startup [analogModule]);
        (optaHost 0 950, startup [analogModule])]
       (initial (expCfg 3 false))).
Proof.
  split; [reflexivity|].
  refine (proj1 (unclaimed_channel_events (expCfg 3 false)
                   [(optaHost 0 9, startup [analogModule]);
                    (optaHost 0 950, startup [analogModule])] eq_refl _) eq_refl).
  repeat constructor; apply noDigitalExpansion_analog.
Defined.

(** ** Which expansion answers *)

Lemma expansionLoop_first (host : Host) (id : Z) (sh : Shared) (i : nat)
    (e : Expansion) :
  nth_error (expansions sh) i = Some e ->
  expType e <> OtherExpansion ->
  (forall (j : nat) (e' : Expansion),
     (j < i)%nat -> nth_error (expansions sh) j = Some e' ->
     expType e' = OtherExpansion) ->
  forall n k : nat,
    (k <= i < k + n)%nat ->
    expansionLoop host id n k sh = refreshAndRead host id i e sh.
Proof.
  intros Hslot Htype Hbefore. induction n as [|n IH]; intros k Hk; [lia|].
  simpl. destruct (Nat.eq_dec k i) as [->|Hne].
  - rewrite Hslot. destruct (expType e); try reflexivity. congruence.
  - destruct (nth_error (expansions sh) k) as [e'|] eqn:E.
    + rewrite (Hbefore k e') by (try assumption; lia). apply IH. lia.
    + apply IH. lia.
Qed.

Lemma nth_error_set_nth_same {A : Type} (i : nat) (x y : A) (l : list A) :
  nth_error l i = Some y -> nth_error (set_nth i x l) i = Some x.
Proof.
  revert i. induction l as [|h t IH]; intros [|i] H; simpl in *;
    try discriminate; [reflexivity|]. now apply IH.
Qed.

Lemma nth_error_set_nth_other {A : Type} (i j : nat) (x : A) (l : list A) :
  j <> i -> nth_error (set_nth i x l) j = nth_error l j.
Proof.
  revert i j. induction l as [|h t IH]; intros [|i] [|j] H; simpl;
    try reflexivity; try congruence. apply IH. congruence.
Qed.

(** X12: on an Opta, an expansion-channel button is answered by the first
    mechanical or solid-state digital expansion the controller holds,
    whichever channel it is configured for: the reading is that expansion's
    input image at the channel (fetched afresh when the gate lets the
    refresh through), passed through the inversion.  No other expansion is
    read or refreshed. *)
Theorem first_digital_expansion_answers (cfg : Config) (host : Host)
    (sh : Shared) (i : nat) (e : Expansion) :
  inputMode cfg = EXP_DIG ->
  opta host = true ->
  (i < maxExpansionNum host)%nat ->
  nth_error (expansions sh) i = Some e ->
  expType e <> OtherExpansion ->
  (forall (j : nat) (e' : Expansion),
     (j < i)%nat -> nth_error (expansions sh) j = Some e' ->
     expType e' = OtherExpansion) ->
  let e1 :=
    if g_optaExpRefreshToken sh =? lastRefreshToken host
    then e else updateDigitalInputs e in
  let sh' := snd (readInput cfg host sh) in
  fst (readInput cfg host sh)
  = xorb (invertedLogic cfg) (expDigitalRead e1 (inputID cfg)) /\
  nth_error (expansions sh') i = Some e1 /\
  (forall j : nat, j <> i ->
     nth_error (expansions sh') j = nth_error (expansions sh) j).
Proof.
  intros Hmode Hopta Hmax Hslot Htype Hbefore. cbv zeta.
  unfold readInput. rewrite Hmode, Hopta.
  rewrite (expansionLoop_first host (inputID cfg) sh i e Hslot Htype Hbefore)
    by lia.
  unfold refreshAndRead.
  destruct (g_optaExpRefreshToken sh =? lastRefreshToken host);
    cbn [negb fst snd expansions].
  - split; [now destruct (invertedLogic cfg), (expDigitalRead e (inputID cfg))|].
    split; [exact Hslot|reflexivity].
  - split; [now destruct (invertedLogic cfg),
              (expDigitalRead (updateDigitalInputs e) (inputID cfg))|].
    split; [now apply (nth_error_set_nth_same i _ e)|].
    intros j Hj. now apply nth_error_set_nth_other.
Qed.

Lemma first_digital_expansion_answers_witness :
  inputMode (expCfg 0 false) = EXP_DIG /\
  nth_error (expansions (startup [firstModule; secondModule])) 0 = Some firstModule /\
  fst (readInput (expCfg 0 false) (optaHost 0 9)
         (startup [firstModule; secondModule]))
  = xorb (invertedLogic (expCfg 0 false))
         (expDigitalRead firstModule (inputID (expCfg 0 false))).
Proof.
  split; [reflexivity|]. split; [reflexivity|].
  refine (proj1 (first_digital_expansion_answers (expCfg 0 false) (optaHost 0 9)
                   (startup [firstModule; secondModule]) 0%nat firstModule
                   eq_refl eq_refl _ eq_refl _ _)).
  - simpl. lia.
  - discriminate.
  - intros j e' Hj. lia.
Defined.

(** ** The clock seen through differences *)

(** X13: [update] sees the clock only through differences modulo
    [2 ^ 32].  Move the clock and the four stamps of a button by the same
    [k] ticks, across a wrap of the counter or not: with the same reading,
    the call has the same outcome, its stamps moved by [k]. *)
Theorem update_shift (cfg : Config) (host host' : Host) (sh sh' : Shared)
    (k : Z) (b : Button) :
  millis host' = add32 (millis host) k ->
  fst (readInput cfg host' (advanceToken (millis host') sh'))
  = fst (readInput cfg host (advanceToken (millis host) sh)) ->
  snd (update cfg host' sh' (shiftClock k b))
  = shiftClock k (snd (update cfg host sh b)).
Proof.
  intros Hclock Hread. rewrite !update_poll, Hread, Hclock. apply poll_shift.
Qed.

Lemma update_shift_witness :
  millis (hostAt (2 ^ 32 + 1) false) = add32 (millis (hostAt 901 false)) (2 ^ 32 - 900) /\
  millis (hostAt (2 ^ 32 + 1) false) = 1 /\
  isRepeating
    (snd (update demoCfg (hostAt (2 ^ 32 + 1) false) (startup [])
            (shiftClock (2 ^ 32 - 900) heldAt801))) = true.
Proof.
  assert (H : millis (hostAt (2 ^ 32 + 1) false)
              = add32 (millis (hostAt 901 false)) (2 ^ 32 - 900)) by evaluate.
  split; [exact H|]. split; [evaluate|].
  rewrite (update_shift demoCfg (hostAt 901 false) (hostAt (2 ^ 32 + 1) false)
             (startup []) (startup []) (2 ^ 32 - 900) heldAt801 H eq_refl).
  evaluate.
Defined.

(** ** The refresh token over one pass *)

Lemma update_token (cfg : Config) (host : Host) (sh : Shared) (b : Button) :
  let sh' := fst (update cfg host sh b) in
  g_optaExpRefreshToken sh'
  = (if negb (tooSoon (millis host) b) && negb (millis host =? lastTokenMs sh)
     then to_uint32 (g_optaExpRefreshToken sh + 1)
     else g_optaExpRefreshToken sh) /\
  lastTokenMs sh'
  = (if negb (tooSoon (millis host) b) then millis host else lastTokenMs sh).
Proof.
  cbv zeta. unfold update.
  change (tooSoon (millis host) (clearEvents b)) with (tooSoon (millis host) b).
  destruct (tooSoon (millis host) b); cbn [negb andb]; [now split|].
  pose proof (readInput_token cfg host (advanceToken (millis host) sh)) as (H1 & H2).
  destruct (readInput cfg host (advanceToken (millis host) sh)) as [p s'].
  cbn [fst snd] in *. rewrite H1, H2. unfold advanceToken.
  destruct (millis host =? lastTokenMs sh) eqn:E; cbn [negb].
  - apply Z.eqb_eq in E. split; congruence.
  - cbn. now split.
Qed.

Lemma updateAll_token (host : Host) (buttons : list (Config * Button)) :
  forall sh : Shared,
    g_optaExpRefreshToken (fst (updateAll host buttons sh))
    = (if anyRuns host buttons && negb (millis host =? lastTokenMs sh)
       then to_uint32 (g_optaExpRefreshToken sh + 1)
       else g_optaExpRefreshToken sh) /\
    lastTokenMs (fst (updateAll host buttons sh))
    = (if anyRuns host buttons then millis host else lastTokenMs sh).
Proof.
  induction buttons as [|[cfg b] bs IH]; intros sh; [now split|].
  pose proof (update_token cfg host sh b) as (T1 & T2). cbv zeta in T1, T2.
  cbn [updateAll].
  destruct (update cfg host sh b) as [s1 b1]. cbn [fst] in T1, T2.
  destruct (IH s1) as (I1 & I2).
  destruct (updateAll host bs s1) as [s2 bs']. cbn [fst] in *.
  rewrite I1, I2, T1, T2. unfold anyRuns. cbn [existsb snd orb].
  fold (anyRuns host bs).
  destruct (tooSoon (millis host) b); cbn [negb andb orb].
  - now split.
  - rewrite Z.eqb_refl. cbn [negb]. rewrite andb_false_r.
    destruct (anyRuns host bs); now split.
Qed.

(** X14: the refresh token over one pass of the sketch's loop, the clock
    standing at one reading.  After any number [n] of the buttons have been
    polled, the token has advanced, by one modulo [2 ^ 32], exactly if one
    of those [n] calls ran (was not skipped by the rate limit) and the clock
    reading differs from the one the token last advanced on; otherwise it is
    unchanged.  So the token advances with the first call that runs and with
    no later one.  The reading it last advanced on is the current one as
    soon as one call has run. *)
Theorem token_once_per_pass (host : Host) (buttons : list (Config * Button))
    (sh : Shared) (n : nat) :
  let polled := firstn n buttons in
  let sh' := fst (updateAll host polled sh) in
  g_optaExpRefreshToken sh'
  = (if anyRuns host polled && negb (millis host =? lastTokenMs sh)
     then to_uint32 (g_optaExpRefreshToken sh + 1)
     else g_optaExpRefreshToken sh) /\
  lastTokenMs sh'
  = (if anyRuns host polled then millis host else lastTokenMs sh).
Proof.
  cbv zeta. apply updateAll_token.
Qed.

(** ** A tap *)

Lemma repeat_needs_active (cfg : Config) (now : Z) (pressed : bool) (b : Button) :
  longPressActive (poll cfg now pressed b) = false ->
  isRepeating (poll cfg now pressed b) = false.
Proof.
  case_state b; destruct pressed; eval_members; run_poll; congruence.
Qed.

Lemma count_none (flag : Button -> bool) (trace : list Button) :
  Forall (fun s => flag s = false) trace -> count flag trace = 0%nat.
Proof.
  induction 1 as [|s trace Hs _ IH]; [reflexivity|].
  rewrite count_cons, Hs, IH. reflexivity.
Qed.

Lemma holding_before_threshold (cfg : Config) (t0 t : Z) (b : Button) :
  holding cfg t0 t b -> t - t0 < longPressThreshold cfg ->
  longPressReported b = false /\ longPressActive b = false.
Proof.
  intros (_ & _ & _ & _ & _ & Hr & Ha) Hlt. rewrite Ha, Hr.
  replace (longPressThreshold cfg <=? t - t0) with false
    by (symmetry; apply Z.leb_gt; exact Hlt).
  now rewrite andb_false_r.
Qed.

(** While the key is held short of the threshold, no poll reports a
    repeat. *)
Lemma hold_run_no_repeat (cfg : Config) (t0 : Z) (ts : list Z) :
  forall (t : Z) (b : Button),
    holding cfg t0 t b ->
    t0 <= t -> ascending t ts -> last ts t - t0 < 2 ^ 32 ->
    last ts t - t0 < longPressThreshold cfg ->
    count isRepeating (run cfg (clocked (reading true ts)) b) = 0%nat.
Proof.
  induction ts as [|t1 ts IH]; intros t b Hb H0 Hasc Hspan Hlt; [reflexivity|].
  simpl in Hasc. destruct Hasc as (Hlt1 & Hasc). rewrite last_cons in *.
  pose proof (ascending_last t1 ts Hasc) as Hlast.
  destruct (hold_poll cfg t0 t t1 b Hb H0 Hlt1 ltac:(lia)) as (Hb1 & _ & _).
  cbv zeta in Hb1.
  destruct (holding_before_threshold cfg t0 t1 _ Hb1 ltac:(lia)) as (_ & Ha).
  change (reading true (t1 :: ts)) with ((t1, true) :: reading true ts).
  rewrite clocked_cons, run_cons, count_cons.
  rewrite (repeat_needs_active cfg (to_uint32 t1) true b Ha).
  now apply (IH t1 _ Hb1); try lia.
Qed.

(** The poll that first reads the key released, out of debounce and with
    no long press begun. *)
Lemma tap_release_poll (cfg : Config) (t0 t t1 : Z) (b : Button) :
  holding cfg t0 t b ->
  debounceTime cfg <= t - t0 -> t - t0 < longPressThreshold cfg ->
  t < t1 -> t1 - t < 2 ^ 32 ->
  let b' := poll cfg (to_uint32 t1) false b in
  (rawState b' = false /\ currentPressed b' = false) /\
  isShortPressed b' = false /\ isLongPressed b' = false /\
  isReleased b' = true /\ isLongReleased b' = false /\ isRepeating b' = false.
Proof.
  intros Hb Hdeb Hlp H1 Hspan.
  destruct (holding_before_threshold cfg t0 t b Hb Hlp) as (Hr' & Ha').
  destruct Hb as (Hraw & Hcp & He & Hu & Hd & Hr & Ha).
  assert (Hsoon : tooSoon (to_uint32 t1) b = false)
    by (apply (next_poll_runs b t t1 Hu); lia).
  apply Z.leb_le in Hdeb. rewrite Hdeb in Hd. simpl in Hd.
  clear Hdeb Hlp He Hu Hr Ha.
  case_state b; try discriminate. clear Hraw Hcp Hd Hr' Ha'.
  cbv zeta; eval_members; run_poll; repeat split; congruence.
Qed.

Lemma reading_false_all (ts : list Z) :
  Forall (fun p : Z * bool => snd p = false) (clocked (reading false ts)).
Proof.
  unfold clocked, reading. rewrite map_map. apply Forall_map.
  apply Forall_forall. intros t _. reflexivity.
Qed.

(** A well-timed tap from rest, as a run of polls. *)
Lemma tap_events_polls (cfg : Config) (b : Button) (c : Cycle) :
  idle b ->
  tapFrom cfg b c ->
  tapEvents (run cfg (clocked (cyclePolls c)) b).
Proof.
  intros Hidle (Hsoon & Hasc & Hspan & Hdeb & Hshort).
  destruct c as [t0 hold tr rest]; cbn [pressAt holdAt releaseAt restAt] in *.
  destruct (ascending_app _ _ _ _ Hasc) as (Hasc1 & Hlt & _).
  pose proof (ascending_last _ _ Hasc1) as Hl1.
  set (th := last hold t0) in *.
  (* the press *)
  destruct (press_poll cfg t0 b Hidle Hsoon) as (Hb1 & Ps & Pr & Plr & Plp).
  cbv zeta in Hb1, Ps, Pr, Plr, Plp.
  assert (Prt : isRepeating (poll cfg (to_uint32 t0) true b) = false).
  { apply repeat_needs_active.
    apply (holding_before_threshold cfg t0 t0 _ Hb1). lia. }
  assert (Plp' : isLongPressed (poll cfg (to_uint32 t0) true b) = false).
  { rewrite Plp. apply (holding_before_threshold cfg t0 t0 _ Hb1). lia. }
  set (b1 := poll cfg (to_uint32 t0) true b) in *.
  (* the hold *)
  destruct (hold_run cfg t0 hold t0 b1 Hb1 ltac:(lia) Hasc1 ltac:(fold th; lia))
    as (Hb2 & Hs & Hr & Hlr & _ & Hlp).
  cbv zeta in Hb2, Hs, Hr, Hlr, Hlp. fold th in Hb2.
  pose proof (hold_run_no_repeat cfg t0 hold t0 b1 Hb1 ltac:(lia) Hasc1
                ltac:(fold th; lia) ltac:(fold th; lia)) as Hrt.
  set (b2 := final cfg (clocked (reading true hold)) b1) in *.
  destruct (holding_before_threshold cfg t0 th b2 Hb2 Hshort) as (Hrep2 & _).
  rewrite Hrep2 in Hlp. simpl in Hlp.
  assert (Hlp0 : count isLongPressed (run cfg (clocked (reading true hold)) b1)
                 = 0%nat) by lia.
  (* the release *)
  destruct (tap_release_poll cfg t0 th tr b2 Hb2 Hdeb Hshort Hlt ltac:(lia))
    as ((Hraw3 & Hcp3) & Rs & Rlp & Rr & Rlr & Rrt).
  cbv zeta in Hraw3, Hcp3, Rs, Rlp, Rr, Rlr, Rrt.
  set (b3 := poll cfg (to_uint32 tr) false b2) in *.
  (* the rest *)
  pose proof (released_run_silent cfg (clocked (reading false rest)) b3
                Hraw3 Hcp3 (reading_false_all rest)) as Hrest.
  assert (Hflag : forall flag : Button -> bool,
    (forall s, silent s -> flag s = false) ->
    count flag (run cfg (clocked (reading false rest)) b3) = 0%nat).
  { intros flag Hf. apply count_none.
    eapply Forall_impl; [|exact Hrest]. exact Hf. }
  (* together *)
  unfold cyclePolls; cbn [pressAt holdAt releaseAt restAt].
  rewrite clocked_cons, run_cons. fold b1.
  rewrite clocked_app, run_app. fold b2.
  rewrite clocked_cons, run_cons. fold b3.
  unfold tapEvents.
  rewrite !count_cons, !count_app, !count_cons.
  rewrite Ps, Pr, Plp', Plr, Prt, Hs, Hr, Hlr, Hlp0, Hrt, Rs, Rlp, Rr, Rlr, Rrt.
  rewrite !Hflag by (intros s (H1 & H2 & H3 & H4 & H5); assumption).
  repeat split; reflexivity.
Qed.

(** X15: a tap.  Calls of [update] that realise a press from rest and a
    release before the long-press threshold (the key still read pressed
    once the debounce window has elapsed, the times increasing) yield one
    call with the short press and one with the release, and no long-press
    entry, long release or repeat at all, however long the button is polled
    afterwards. *)
Theorem tap_events (cfg : Config) (b : Button) (c : Cycle)
    (calls : list (Host * Shared)) :
  idle b ->
  readings cfg calls = clocked (cyclePolls c) ->
  tapFrom cfg b c ->
  tapEvents (updates cfg calls b).
Proof.
  intros Hidle Hcalls Htap. rewrite updates_run, Hcalls.
  now apply tap_events_polls.
Qed.

Lemma tap_events_witness :
  idle (initial demoCfg) /\
  tapFrom demoCfg (initial demoCfg) tapCycle /\
  tapEvents (updates demoCfg (callsFor demoCfg (clocked (cyclePolls tapCycle)))
               (initial demoCfg)).
Proof.
  assert (H0 : idle (initial demoCfg)) by evaluate_all.
  assert (R : readings demoCfg (callsFor demoCfg (clocked (cyclePolls tapCycle)))
              = clocked (cyclePolls tapCycle)) by evaluate.
  assert (H1 : tapFrom demoCfg (initial demoCfg) tapCycle) by evaluate_all.
  split; [exact H0|]. split; [exact H1|].
  exact (tap_events demoCfg (initial demoCfg) tapCycle _ H0 R H1).
Defined.

(** ** When the long press is reported *)

(** X16: the long-press entry comes with the first call made once both
    the threshold and the debounce window have elapsed since the call that
    saw the press, and with that call only.  After a press from rest at
    true time [t0] and calls at the later times [ts] that read the key
    pressed, a further such call at time [t] reports the entry exactly when
    [t - t0] has reached both durations and the time of the call before it
    had not. *)
Theorem long_press_timing (cfg : Config) (b : Button) (t0 t : Z) (ts : list Z)
    (calls : list (Host * Shared)) (host : Host) (sh : Shared) :
  idle b ->
  tooSoon (to_uint32 t0) b = false ->
  ascending t0 (ts ++ [t]) ->
  t - t0 < 2 ^ 32 ->
  readings cfg calls = clocked ((t0, true) :: reading true ts) ->
  millis host = to_uint32 t ->
  fst (readInput cfg host (advanceToken (millis host) sh)) = true ->
  let due := fun x =>
    (debounceTime cfg <=? x - t0) && (longPressThreshold cfg <=? x - t0) in
  isLongPressed (snd (update cfg host sh (finalState cfg calls b)))
  = due t && negb (due (last ts t0)).
Proof.
  intros Hidle Hsoon Hasc Hspan Hcalls Hclock Hread due.
  destruct (ascending_app _ _ _ _ Hasc) as (Hasc1 & Hlt & _).
  pose proof (ascending_last _ _ Hasc1) as Hl1.
  unfold finalState. rewrite updates_run, Hcalls.
  fold (final cfg (clocked ((t0, true) :: reading true ts)) b).
  rewrite clocked_cons, final_cons.
  destruct (press_poll cfg t0 b Hidle Hsoon) as (Hb1 & _).
  cbv zeta in Hb1.
  destruct (hold_run cfg t0 ts t0 _ Hb1 ltac:(lia) Hasc1 ltac:(lia)) as (Hb2 & _).
  cbv zeta in Hb2.
  destruct (hold_poll cfg t0 (last ts t0) t _ Hb2 ltac:(lia) Hlt Hspan)
    as (Hb3 & _ & Hlp).
  cbv zeta in Hb3, Hlp.
  rewrite update_poll, Hread, Hclock, Hlp.
  destruct Hb2 as (_ & _ & _ & _ & _ & Hr2 & _).
  destruct Hb3 as (_ & _ & _ & _ & _ & Hr3 & _).
  rewrite Hr2, Hr3. subst due. cbv beta. apply andb_comm.
Qed.

(** X17: the call that ends a debounce cannot see an edge, so a stalled
    loop turns a tap into a long press.  If a call runs with the button
    still in the debounce of a press, the guard unset, and both the debounce
    window and the long-press threshold elapsed since the edge, it reports
    the long-press entry and no release, whatever the input reads, released
    included; the raw state stays recorded as it was. *)
Theorem long_press_after_stall (cfg : Config) (host : Host) (sh : Shared)
    (b : Button) :
  debouncing b = true ->
  currentPressed b = true ->
  longPressReported b = false ->
  let now := millis host in
  LOOP_INTERVAL_MS <= sub32 now (lastUpdateTime b) ->
  debounceTime cfg <= sub32 now (edgeTime b) ->
  longPressThreshold cfg <= sub32 now (edgeTime b) ->
  let b' := snd (update cfg host sh b) in
  isLongPressed b' = true /\ isReleased b' = false /\
  currentPressed b' = true /\ longPressActive b' = true /\
  rawState b' = rawState b.
Proof.
  intros Hd Hcp Hrep now Hrun Hdeb Hlp. cbv zeta. rewrite update_poll.
  generalize (fst (readInput cfg host (advanceToken (millis host) sh))).
  intros pressed. subst now. apply Z.ltb_ge in Hrun. apply Z.leb_le in Hdeb, Hlp.
  case_state b; try discriminate; clear Hd Hcp Hrep; destruct pressed;
    eval_members; run_poll; repeat split; congruence.
Qed.

Lemma long_press_after_stall_witness :
  debouncing pressedAt1 = true /\
  fst (readInput demoCfg (hostAt 901 true)
         (advanceToken (millis (hostAt 901 true)) (startup []))) = false /\
  isLongPressed (snd (update demoCfg (hostAt 901 true) (startup []) pressedAt1))
  = true.
Proof.
  split; [evaluate|]. split; [evaluate|].
  refine (proj1 (long_press_after_stall demoCfg (hostAt 901 true) (startup [])
                   pressedAt1 _ _ _ _ _ _)); evaluate.
Defined.

Lemma long_press_timing_witness :
  idle (initial demoCfg) /\
  isLongPressed
    (snd (update demoCfg (hostAt 801 false) (startup [])
            (finalState demoCfg
               (callsFor demoCfg (clocked ((1, true) :: reading true [400; 800])))
               (initial demoCfg))))
  = ((debounceTime demoCfg <=? 801 - 1) && (longPressThreshold demoCfg <=? 801 - 1))
    && negb ((debounceTime demoCfg <=? last [400; 800] 1 - 1)
             && (longPressThreshold demoCfg <=? last [400; 800] 1 - 1)).
Proof.
  assert (H0 : idle (initial demoCfg)) by evaluate_all.
  split; [exact H0|].
  refine (long_press_timing demoCfg (initial demoCfg) 1 801 [400; 800]
            (callsFor demoCfg (clocked ((1, true) :: reading true [400; 800])))
            (hostAt 801 false) (startup []) H0 _ _ _ _ _ _).
  - evaluate.
  - simpl. lia.
  - evaluate.
  - evaluate.
  - evaluate.
  - evaluate.
Defined.

(** ** Who touches the bus *)

(** X18: a direct-pin button ([GPIO] or [OPTA_CTL]) never refreshes an
    expansion: its [update] leaves the expansions, the refresh log and
    [lastExpRefreshToken] as they were, and reads nothing but its own pin,
    active low for [GPIO] and active high for [OPTA_CTL], before the
    inversion. *)
Theorem direct_pin_never_refreshes (cfg : Config) (host : Host) (sh : Shared)
    (b : Button) :
  inputMode cfg <> EXP_DIG ->
  let sh' := fst (update cfg host sh b) in
  expansions sh' = expansions sh /\
  refreshLog sh' = refreshLog sh /\
  lastExpRefreshToken sh' = lastExpRefreshToken sh /\
  fst (readInput cfg host (advanceToken (millis host) sh))
  = xorb (invertedLogic cfg)
      (match inputMode cfg with
       | GPIO => negb (pinHigh host (inputID cfg))
       | _ => pinHigh host (inputID cfg)
       end).
Proof.
  intros Hmode. cbv zeta. unfold update.
  assert (Hadv : expansions (advanceToken (millis host) sh) = expansions sh /\
                 refreshLog (advanceToken (millis host) sh) = refreshLog sh /\
                 lastExpRefreshToken (advanceToken (millis host) sh)
                 = lastExpRefreshToken sh).
  { unfold advanceToken. destruct (millis host =? lastTokenMs sh); now repeat split. }
  destruct Hadv as (H1 & H2 & H3).
  unfold readInput.
  destruct (inputMode cfg); try congruence;
    destruct (tooSoon (millis host) (clearEvents b)); cbn [fst snd];
    rewrite ?H1, ?H2, ?H3; repeat split;
    destruct (invertedLogic cfg), (pinHigh host (inputID cfg)); reflexivity.
Qed.

Lemma direct_pin_never_refreshes_witness :
  inputMode demoCfg <> EXP_DIG /\
  refreshLog (fst (update demoCfg (optaHost 0 7) (afterFirst 0 7) (initial demoCfg)))
  = refreshLog (afterFirst 0 7).
Proof.
  assert (H : inputMode demoCfg <> EXP_DIG) by evaluate.
  split; [exact H|].
  exact (proj1 (proj2 (direct_pin_never_refreshes demoCfg (optaHost 0 7)
                         (afterFirst 0 7) (initial demoCfg) H))).
Defined.

(** ** Events pair up *)

Lemma poll_balance (cfg : Config) (now : Z) (pressed : bool) (b : Button) :
  rawState b = currentPressed b ->
  (longPressActive b = true ->
   longPressReported b = true /\ debouncing b = false) ->
  (longPressReported b = true -> currentPressed b = true) ->
  let b' := poll cfg now pressed b in
  (once (currentPressed b) + once (isShortPressed b')
   = once (isReleased b') + once (currentPressed b'))%nat /\
  (once (longPressActive b) + once (isLongPressed b')
   = once (isLongReleased b') + once (longPressActive b'))%nat.
Proof.
  intros Hraw Hact Hrep.
  case_state b; try discriminate;
    try (destruct Hact as (? & ?); [reflexivity|]; discriminate);
    try (specialize (Hrep eq_refl); discriminate);
    clear Hraw Hact Hrep;
    destruct pressed; eval_members; run_poll; split; reflexivity.
Qed.

Lemma run_balance (cfg : Config) (polls : list (Z * bool)) :
  forall b : Button,
    rawState b = currentPressed b ->
    (longPressActive b = true ->
     longPressReported b = true /\ debouncing b = false) ->
    (longPressReported b = true -> currentPressed b = true) ->
    (once (currentPressed b) + count isShortPressed (run cfg polls b)
     = count isReleased (run cfg polls b)
       + once (currentPressed (final cfg polls b)))%nat /\
    (once (longPressActive b) + count isLongPressed (run cfg polls b)
     = count isLongReleased (run cfg polls b)
       + once (longPressActive (final cfg polls b)))%nat.
Proof.
  induction polls as [|[now pressed] polls IH]; intros b H1 H2 H3.
  - rewrite final_nil. unfold count. simpl. split; lia.
  - destruct (poll_coherent cfg now pressed b H1 H2 H3) as (C1 & C2 & C3).
    destruct (poll_balance cfg now pressed b H1 H2 H3) as (B1 & B2).
    cbv zeta in C1, C2, C3, B1, B2.
    destruct (IH _ C1 C2 C3) as (I1 & I2).
    rewrite run_cons, final_cons, !count_cons.
    fold (once (isShortPressed (poll cfg now pressed b))).
    fold (once (isReleased (poll cfg now pressed b))).
    fold (once (isLongPressed (poll cfg now pressed b))).
    fold (once (isLongReleased (poll cfg now pressed b))).
    split; lia.
Qed.

(** X19: presses and releases pair up.  Over any sequence of calls on a
    reachable button, the short presses reported, plus one if the button
    was pressed at the start, are as many as the releases reported, plus
    one if it is pressed at the end; and likewise the long-press entries
    and the long releases, with the long press active in place of
    pressed.  No press is reported twice without a release in between, and
    every long press that has ended has had its long release. *)
Theorem events_pair_up (cfg : Config) (calls : list (Host * Shared)) (b : Button) :
  reachable cfg b ->
  let trace := updates cfg calls b in
  (once (currentPressed b) + count isShortPressed trace
   = count isReleased trace + once (currentPressed (finalState cfg calls b)))%nat /\
  (once (longPressActive b) + count isLongPressed trace
   = count isLongReleased trace
     + once (longPressActive (finalState cfg calls b)))%nat.
Proof.
  intros Hr. cbv zeta. unfold finalState. rewrite updates_run.
  fold (final cfg (readings cfg calls) b).
  destruct (reachable_consistent_free cfg b Hr) as (H1 & H2 & H3).
  now apply run_balance.
Qed.

Lemma events_pair_up_witness :
  reachable demoCfg (initial demoCfg) /\
  (once (currentPressed (initial demoCfg))
   + count isShortPressed
       (updates demoCfg (callsFor demoCfg (clocked (cyclePolls firstCycle)))
          (initial demoCfg))
   = count isReleased
       (updates demoCfg (callsFor demoCfg (clocked (cyclePolls firstCycle)))
          (initial demoCfg))
     + once (currentPressed
               (finalState demoCfg
                  (callsFor demoCfg (clocked (cyclePolls firstCycle)))
                  (initial demoCfg))))%nat.
Proof.
  split; [apply reach_initial|].
  exact (proj1 (events_pair_up demoCfg
                  (callsFor demoCfg (clocked (cyclePolls firstCycle)))
                  (initial demoCfg) (reach_initial demoCfg))).
Defined.

(** ** A cadence that does not drift *)

Lemma poll_skipped (cfg : Config) (now : Z) (pressed : bool) (b : Button) :
  tooSoon now b = true -> poll cfg now pressed b = clearEvents b.
Proof.
  intros H. unfold poll.
  replace (tooSoon now (clearEvents b)) with true. reflexivity.
Qed.

Lemma held_run_stamp (cfg : Config) (polls : list (Z * bool)) :
  validConfig cfg ->
  acceleration cfg = 0 ->
  intWidth cfg = Int32 \/ repeatIntervalStart cfg < 2 ^ 15 ->
  repeatIntervalMin cfg <= repeatIntervalStart cfg ->
  forall b : Button,
    consistent cfg b ->
    currentRepeatInterval b = repeatIntervalStart cfg ->
    longPressActive b = true ->
    0 <= lastRepeatTime b < 2 ^ 32 ->
    Forall (fun p => snd p = true) polls ->
    lastRepeatTime (final cfg polls b)
    = to_uint32 (lastRepeatTime b
                 + repeatIntervalStart cfg
                   * Z.of_nat (count isRepeating (run cfg polls b))) /\
    longPressActive (final cfg polls b) = true.
Proof.
  intros Hc Hacc Hw Hms.
  induction polls as [|[now pressed] polls IH];
    intros b Hb Hcur Ha HL Hall.
  - rewrite final_nil. unfold count. simpl.
    rewrite Z.mul_0_r, Z.add_0_r, to_uint32_small by exact HL. now split.
  - pose proof (Forall_inv Hall) as Hp. pose proof (Forall_inv_tail Hall) as Hps.
    simpl in Hp. subst pressed.
    pose proof (poll_consistent cfg now true b Hc Hms Hb) as Hb'.
    pose proof (poll_interval_fixed cfg now true b Hc
                  (or_introl (conj Hacc Hw)) Hcur) as Hcur'.
    rewrite run_cons, final_cons, count_cons.
    destruct (tooSoon now b) eqn:Hsoon.
    + rewrite (poll_skipped cfg now true b Hsoon) in *.
      destruct (IH (clearEvents b) Hb' Hcur' Ha HL Hps) as (I1 & I2).
      split; [|exact I2]. rewrite I1. reflexivity.
    + destruct (held_poll cfg now b Hb Ha Hsoon)
        as ((_ & _ & _ & Ha' & _) & _ & Hfire & Hstamp & _).
      cbv zeta in Ha', Hfire, Hstamp.
      assert (HL' : 0 <= lastRepeatTime (poll cfg now true b) < 2 ^ 32).
      { rewrite Hstamp. destruct (repeatDue now b); [apply to_uint32_range|exact HL]. }
      destruct (IH _ Hb' Hcur' Ha' HL' Hps) as (I1 & I2).
      split; [|exact I2]. rewrite I1, Hstamp.
      change (isRepeating (poll cfg now true b))
        with (repeatTriggered (poll cfg now true b)).
      rewrite Hfire, Hcur.
      destruct (repeatDue now b).
      * unfold add32, to_uint32. rewrite Zplus_mod_idemp_l. f_equal. lia.
      * f_equal.
Qed.

(** X20: with the acceleration step at 0, and [int] of 32 bits or the
    initial repeat interval below [2 ^ 15], the repeat cadence never drifts.
    However irregularly [update] is called while the long press goes on
    (skipped calls and late calls included), the last-repeat stamp at the end
    is the stamp at the start plus the repeat interval times the number of
    repeats reported in between, modulo [2 ^ 32]; the long press stays
    active. *)
Theorem repeat_schedule_anchored (cfg : Config) (calls : list (Host * Shared))
    (b : Button) :
  validConfig cfg ->
  acceleration cfg = 0 ->
  intWidth cfg = Int32 \/ repeatIntervalStart cfg < 2 ^ 15 ->
  repeatIntervalMin cfg <= repeatIntervalStart cfg ->
  reachable cfg b ->
  longPressActive b = true ->
  0 <= lastRepeatTime b < 2 ^ 32 ->
  Forall (fun p => snd p = true) (readings cfg calls) ->
  lastRepeatTime (finalState cfg calls b)
  = to_uint32 (lastRepeatTime b
               + repeatIntervalStart cfg
                 * Z.of_nat (count isRepeating (updates cfg calls b))) /\
  longPressActive (finalState cfg calls b) = true.
Proof.
  intros Hc Hacc Hw Hms Hr Ha HL Hall.
  unfold finalState. rewrite updates_run.
  fold (final cfg (readings cfg calls) b).
  apply held_run_stamp; try assumption.
  - now apply reachable_consistent.
  - clear Ha HL Hall. induction Hr as [|host sh b Hr IH]; [reflexivity|].
    rewrite update_poll. apply poll_interval_fixed; auto.
Qed.

Lemma repeat_schedule_anchored_witness :
  acceleration steadyCfg = 0 /\
  longPressActive steadyAt1801 = true /\
  lastRepeatTime
    (finalState steadyCfg
       (callsFor steadyCfg (clocked (reading true [1900; 1901; 2400; 2401])))
       steadyAt1801)
  = to_uint32
      (lastRepeatTime steadyAt1801
       + repeatIntervalStart steadyCfg
         * Z.of_nat
             (count isRepeating
                (updates steadyCfg
                   (callsFor steadyCfg
                      (clocked (reading true [1900; 1901; 2400; 2401])))
                   steadyAt1801))).
Proof.
  split; [reflexivity|]. split; [evaluate|].
  refine (proj1 (repeat_schedule_anchored steadyCfg
                   (callsFor steadyCfg
                      (clocked (reading true [1900; 1901; 2400; 2401])))
                   steadyAt1801 _ eq_refl (or_introl eq_refl) _ _ _ _ _)).
  - repeat split; evaluate.
  - evaluate.
  - unfold steadyAt1801.
    apply reach_update, reach_update, reach_update, reach_initial.
  - evaluate.
  - split; evaluate.
  - repeat constructor.
Defined.

(** ** Acceleration where the floor holds *)

(** X21: where [int] has 32 bits, or the initial repeat interval is below
    [2 ^ 15], a call that runs while the long press is active (and so out of
    debounce) and still reads the key pressed, at least 1000 ms after the
    acceleration stamp, lowers the repeat interval by the acceleration step
    but not below the configured minimum, also when the step exceeds the
    interval; each such lowering sets the acceleration stamp to [now] (at
    the minimum there is nothing left to lower and the stamp is left
    alone).  Less than 1000 ms after the stamp, no call changes the interval
    or the stamp: at most one step per elapsed second. *)
Theorem acceleration_step (cfg : Config) (host : Host) (sh : Shared) (b : Button) :
  validConfig cfg ->
  repeatIntervalMin cfg <= repeatIntervalStart cfg ->
  intWidth cfg = Int32 \/ repeatIntervalStart cfg < 2 ^ 15 ->
  reachable cfg b ->
  longPressActive b = true ->
  debouncing b = false ->
  let now := millis host in
  LOOP_INTERVAL_MS <= sub32 now (lastUpdateTime b) ->
  fst (readInput cfg host (advanceToken now sh)) = true ->
  let b' := snd (update cfg host sh b) in
  let cur := currentRepeatInterval b in
  (1000 <= sub32 now (lastAccelUpdate b) ->
     currentRepeatInterval b'
     = Z.max (cur - acceleration cfg) (repeatIntervalMin cfg) /\
     repeatIntervalMin cfg <= currentRepeatInterval b' <= cur /\
     (repeatIntervalMin cfg < cur -> lastAccelUpdate b' = now) /\
     (cur = repeatIntervalMin cfg -> lastAccelUpdate b' = lastAccelUpdate b) /\
     (forall (host2 : Host) (sh2 : Shared),
        sub32 (millis host2) (lastAccelUpdate b') < 1000 ->
        currentRepeatInterval (snd (update cfg host2 sh2 b'))
        = currentRepeatInterval b')) /\
  (sub32 now (lastAccelUpdate b) < 1000 ->
     currentRepeatInterval b' = cur /\ lastAccelUpdate b' = lastAccelUpdate b).
Proof.
  intros Hc Hms Hw Hr Ha Hd now Hrun Hread b' cur.
  pose proof (reachable_consistent cfg b Hc Hms Hr) as Hb.
  assert (Hb' : consistent cfg b').
  { apply (reachable_consistent cfg b' Hc Hms). now apply reach_update. }
  assert (Hsoon : tooSoon now b = false) by (apply Z.ltb_ge; exact Hrun).
  assert (Eb : b' = poll cfg now true b).
  { subst b'. rewrite update_poll. fold now. now rewrite Hread. }
  destruct (held_poll cfg now b Hb Ha Hsoon)
    as ((_ & _ & _ & Ha' & _) & _ & _ & _ & Hcur & Hstamp).
  cbv zeta in Hcur, Hstamp. rewrite <- Eb in Ha', Hcur, Hstamp.
  pose proof Hb as (_ & _ & _ & Hrange).
  pose proof (reachable_floor cfg b Hc Hms Hw Hr) as Hfloor.
  pose proof Hc as (_ & _ & _ & Hs & Hm & Hacc).
  fold cur in Hcur, Hstamp, Hrange, Hfloor.
  assert (Hw' : intWidth cfg = Int32 \/ cur < 2 ^ 15)
    by (destruct Hw; [now left|right; lia]).
  split.
  - intros Hdue.
    assert (Edue : accelDue now b = true) by (apply Z.leb_le; exact Hdue).
    rewrite Edue in Hcur, Hstamp; cbn [andb] in Hcur, Hstamp.
    assert (Hnext : forall (host2 : Host) (sh2 : Shared),
      sub32 (millis host2) (lastAccelUpdate b') < 1000 ->
      currentRepeatInterval (snd (update cfg host2 sh2 b'))
      = currentRepeatInterval b').
    { intros host2 sh2 Hlt. rewrite update_poll. now apply interval_kept. }
    destruct (repeatIntervalMin cfg <? cur) eqn:Elt.
    + apply Z.ltb_lt in Elt.
      rewrite (steppedInterval_exact cfg cur Hc Elt ltac:(lia) Hw') in Hcur.
      rewrite Hcur.
      split; [reflexivity|]. split; [lia|]. split; [intros _; exact Hstamp|].
      split; [intros; lia|]. rewrite <- Hcur. exact Hnext.
    + apply Z.ltb_ge in Elt. rewrite Hcur.
      split; [lia|]. split; [lia|]. split; [intros; lia|].
      split; [intros _; exact Hstamp|]. rewrite <- Hcur. exact Hnext.
  - intros Hlt. subst b'. rewrite update_poll.
    exact (interval_kept cfg (millis host) _ b Hb Ha Hlt).
Qed.

Lemma acceleration_step_witness :
  longPressActive heldAt801 = true /\
  1000 <= sub32 (millis (hostAt 1801 false)) (lastAccelUpdate heldAt801) /\
  currentRepeatInterval heldAt801 = 100 /\
  currentRepeatInterval heldAt1801 = Z.max (100 - 100) 8.
Proof.
  split; [evaluate|]. split; [evaluate|]. split; [evaluate|].
  refine (proj1 (proj1 (acceleration_step demoCfg (hostAt 1801 false) (startup [])
                   heldAt801 demoCfg_valid _ (or_introl eq_refl)
                   heldAt801_reachable _ _ _ _) _)).
  - evaluate.
  - evaluate.
  - evaluate.
  - evaluate.
  - evaluate.
  - evaluate.
Defined.
